(** * The console output channel of the CLI
    (packages/cli/src/util/output/create-output.ts)

    A shallow embedding of [_createOutput]: the flag [debugEnabled], fixed
    when the channel is built, is a parameter of the operations; the closure
    variables [spinnerMessage] and [spinner] become fields of a state
    record; every effect on the outside world (a write to the error stream,
    a call into the spinner driver, a reading of the clock) is threaded
    through that state, and the imported modules (chalk, boxen, ./link,
    ./wait, the system clock) are the fields of one interface record. *)

From Stdlib Require Import ZArith String Ascii List Lia Bool DecimalString.
From Stdlib Require Import Floats.SpecFloat.
From stdpp Require Import gmap strings list.

Local Open Scope Z_scope.

(** ** JavaScript values the module handles *)

(** A parameter typed [string | null | undefined]. *)
Inductive js_string :=
  | Undefined
  | Null
  | Str (s : string).

(** ToBoolean: [undefined], [null] and the empty string are falsy. *)
Definition truthy_string (s : string) : bool :=
  negb (String.eqb s "").

Definition truthy (v : js_string) : bool :=
  match v with
  | Str s => truthy_string s
  | _ => false
  end.

(** A default parameter value replaces [undefined] only. *)
Definition or_default (d : js_string) (v : js_string) : js_string :=
  match v with
  | Undefined => d
  | _ => v
  end.

(** A value interpolated in a template literal. *)
Definition interpolate (v : js_string) : string :=
  match v with
  | Undefined => "undefined"
  | Null => "null"
  | Str s => s
  end.

Definition LF : string := String "010" "".

(** Number::toString of an integer (below 10^21, where JavaScript prints
    plain decimal digits). *)
Definition Number_toString (n : Z) : string :=
  NilZero.string_of_int (Z.to_int n).

(** ** The imported modules *)

(** A value of a [boxen.Options] field. *)
Inductive option_value :=
  | OStr (s : string)
  | ONum (n : Z)
  | OSides (top bottom left right : Z).

(** [{...base, ...extra}] where [extra] may be [undefined]. *)
Definition spread (base : gmap string option_value)
    (extra : option (gmap string option_value)) : gmap string option_value :=
  default ∅ extra ∪ base.

(** The last argument of [warn]. *)
Record warn_options := { wo_boxen : option (gmap string option_value) }.

(** What the module imports and does not define: the styles of chalk it
    uses, [boxen], [renderLink] of ./link, and the system clock. *)
Class Imports := {
  (** [chalk.grey], [chalk.gray], [chalk.red], [chalk.bold], [chalk.cyan],
      [chalk.bold.yellow], and the [{yellow.bold ...}] of a chalk template *)
  chalk_grey : string -> string;
  chalk_gray : string -> string;
  chalk_red : string -> string;
  chalk_bold : string -> string;
  chalk_cyan : string -> string;
  chalk_bold_yellow : string -> string;
  chalk_yellow_bold : string -> string;
  (** [boxen(text, options)] *)
  boxen : string -> gmap string option_value -> string;
  (** [renderLink(url)] *)
  renderLink : string -> string;
  (** the successive readings of the system clock, in milliseconds since
      the epoch *)
  Date_now : nat -> Z;
}.

(** ** State and effects *)

(** A spinner handle, as returned by [wait]: the [StopSpinner] of ./wait,
    a function with a [text] property. *)
Definition handle := nat.

(** What the channel does to the outside world. *)
Inductive event :=
  | StderrWrite (str : string)   (* process.stderr.write(str) *)
  | Wait (h : handle) (message : string) (delay : Z)
                                 (* h = wait(message, delay) *)
  | SetText (h : handle) (message : string)
                                 (* h.text = message *)
  | Stop (h : handle).           (* h() *)

Record State := mkState {
  spinnerMessage : string;
  spinner : option handle;
  (** everything the channel did to the outside world, oldest first *)
  trace : list event;
  (** how many handles [wait] has handed out *)
  handles : nat;
  (** how many times the clock has been read *)
  ticks : nat;
}.

(** The argument of [createOutput]. *)
Record OutputOptions := { debug_option : option bool }.

(** [{ debug: debugEnabled = false }: OutputOptions = {}] *)
Definition debugEnabled_of (opts : option OutputOptions) : bool :=
  default false (opts ≫= debug_option).

(** The closure variables and the world when [_createOutput] returns. *)
Definition fresh : State :=
  {| spinnerMessage := "";
     spinner := None;
     trace := [];
     handles := 0;
     ticks := 0 |}.

(** [_createOutput(opts)]: the flag the operations are closed over, and the
    state they share. *)
Definition _createOutput (opts : option OutputOptions) : bool * State :=
  (debugEnabled_of opts, fresh).

(** The singleton: [createOutput] builds the channel on first use only. *)
Definition createOutput (opts : option OutputOptions)
    (instance : option (bool * State)) : bool * State :=
  match instance with
  | Some i => i
  | None => _createOutput opts
  end.

(** What the rest of the program does with the module: it calls
    [createOutput], or it uses the channel it holds, which changes the
    state the operations share. *)
Inductive module_step :=
  | Create (opts : option OutputOptions)
  | Use (operations : State -> State).

(** The module variable [instance] after a step. *)
Definition module_do (instance : option (bool * State)) (step : module_step)
    : option (bool * State) :=
  match step with
  | Create opts => Some (createOutput opts instance)
  | Use operations =>
      match instance with
      | Some (debugEnabled, s) => Some (debugEnabled, operations s)
      | None => None
      end
  end.

(** A computation reads and updates the state; [None] means the recursion
    budget ran out before it returned. *)
Definition M (A : Type) : Type := State -> option (A * State).

Definition ret {A} (a : A) : M A := fun s => Some (a, s).

Definition bind {A B} (m : M A) (k : A -> M B) : M B :=
  fun s => match m s with
           | Some (a, s') => k a s'
           | None => None
           end.

Notation "x <- m ;; k" := (bind m (fun x => k))
  (at level 100, m at next level, right associativity).
Notation "m ;; k" := (bind m (fun _ => k))
  (at level 100, right associativity).

Definition out_of_fuel {A} : M A := fun _ => None.

(** [m'] returns whatever [m] returns. *)
Definition extends {A} (m m' : M A) : Prop :=
  forall s r, m s = Some r -> m' s = Some r.

Definition get {A} (field : State -> A) : M A := fun s => Some (field s, s).

Definition emit (e : event) : M unit := fun s =>
  Some (tt, {| spinnerMessage := spinnerMessage s;
               spinner := spinner s;
               trace := trace s ++ [e];
               handles := handles s;
               ticks := ticks s |}).

Definition set_spinnerMessage (m : string) : M unit := fun s =>
  Some (tt, {| spinnerMessage := m;
               spinner := spinner s;
               trace := trace s;
               handles := handles s;
               ticks := ticks s |}).

Definition set_spinner (h : option handle) : M unit := fun s =>
  Some (tt, {| spinnerMessage := spinnerMessage s;
               spinner := h;
               trace := trace s;
               handles := handles s;
               ticks := ticks s |}).

(** Modelled from the spec: [wait] of ./wait, the spinner driver, which is
    not among the sources. [wait(message, delay)] starts a spinner that
    animates once the delay has elapsed and returns its handle; the handle
    is new at every call. *)
Definition wait (message : string) (delay : Z) : M handle := fun s =>
  Some (handles s,
        {| spinnerMessage := spinnerMessage s;
           spinner := spinner s;
           trace := trace s ++ [Wait (handles s) message delay];
           handles := S (handles s);
           ticks := ticks s |}).

(** ** Built-ins of the language: the clock and number formatting *)

(** The character of the last decimal digit of [d]. *)
Definition digit (d : Z) : ascii :=
  ascii_of_N (48 + Z.to_N (d mod 10)).

(** The last [width] decimal digits of [n], most significant first. *)
Fixpoint pad (width : nat) (n : Z) : string :=
  match width with
  | O => ""
  | S w => String (digit (n / 10 ^ Z.of_nat w)) (pad w n)
  end.

Definition msPerDay : Z := 86400000.

(** Year, month (1..12) and day of the month of a day number counted from
    1970-01-01, in the proleptic Gregorian calendar (ECMA-262 YearFromTime,
    MonthFromTime and DateFromTime, computed over 400-year eras that start
    on March 1st). *)
Definition civil_from_days (days : Z) : Z * Z * Z :=
  let z := days + 719468 in
  let era := z / 146097 in
  let doe := z mod 146097 in
  let yoe := (doe - doe / 1460 + doe / 36524 - doe / 146096) / 365 in
  let doy := doe - (365 * yoe + yoe / 4 - yoe / 100) in
  let mp := (5 * doy + 2) / 153 in
  let d := doy - (153 * mp + 2) / 5 + 1 in
  let m := if mp <? 10 then mp + 3 else mp - 9 in
  let y := yoe + era * 400 + (if m <=? 2 then 1 else 0) in
  (y, m, d).

(** The year of a date-time string: four digits, or a sign and six digits
    outside 0..9999. *)
Definition year_string (y : Z) : string :=
  if (0 <=? y) && (y <=? 9999) then pad 4 y
  else (if y <? 0 then "-" else "+") +:+ pad 6 (Z.abs y).

(** Date.prototype.toISOString on a time value. *)
Definition toISOString (t : Z) : string :=
  let '(y, m, d) := civil_from_days (t / msPerDay) in
  let ms := t mod msPerDay in
  year_string y +:+ "-" +:+ pad 2 m +:+ "-" +:+ pad 2 d +:+ "T" +:+
  pad 2 (ms / 3600000) +:+ ":" +:+ pad 2 (ms / 60000 mod 60) +:+ ":" +:+
  pad 2 (ms / 1000 mod 60) +:+ "." +:+ pad 3 (ms mod 1000) +:+ "Z".

(** *** Recognising an ISO-8601 date-time *)

Definition is_digit (c : ascii) : bool :=
  let n := N_of_ascii c in ((48 <=? n) && (n <=? 57))%N.

Definition digit_value (c : ascii) : Z := Z.of_N (N_of_ascii c) - 48.

(** Reads exactly [width] digits. *)
Fixpoint take_number (width : nat) (acc : Z) (s : string) : option (Z * string) :=
  match width with
  | O => Some (acc, s)
  | S w =>
      match s with
      | String c s' =>
          if is_digit c then take_number w (10 * acc + digit_value c) s' else None
      | EmptyString => None
      end
  end.

Definition expect (c : ascii) (s : string) : option string :=
  match s with
  | String c' s' => if Ascii.eqb c c' then Some s' else None
  | EmptyString => None
  end.

(** One field of [width] digits with a value in [lo..hi], followed by the
    separator [sep]. *)
Definition field (width : nat) (lo hi : Z) (sep : ascii) (s : string) : option string :=
  match take_number width 0 s with
  | Some (v, s') => if (lo <=? v) && (v <=? hi) then expect sep s' else None
  | None => None
  end.

Definition year_field (s : string) : option string :=
  match s with
  | String c s' =>
      if Ascii.eqb c "+" || Ascii.eqb c "-" then field 6 0 999999 "-" s'
      else field 4 0 9999 "-" s
  | EmptyString => None
  end.

(** The fields after the year: width, least and greatest value, and the
    separator that follows. *)
Definition date_time_fields : list (nat * Z * Z * ascii) :=
  [ (2%nat, 1, 12, "-"); (2%nat, 1, 31, "T"); (2%nat, 0, 23, ":");
    (2%nat, 0, 59, ":"); (2%nat, 0, 59, "."); (3%nat, 0, 999, "Z") ]%char.

(** [YYYY-MM-DDTHH:mm:ss.sssZ], or the same with an expanded year
    [+YYYYYY] / [-YYYYYY]. *)
Definition iso8601 (s : string) : bool :=
  match
    fold_left
      (fun (rest : option string) '(w, lo, hi, sep) =>
         match rest with
         | Some r => field w lo hi sep r
         | None => None
         end)
      date_time_fields (year_field s)
  with
  | Some EmptyString => true
  | _ => false
  end.

(** *** Numbers *)

(** Division of Numbers: IEEE 754 binary64, rounding to nearest even. *)
Definition Number_div : spec_float -> spec_float -> spec_float := SFdiv 53 1024.

(** An integer below 2^53 as a Number; mantissa and exponent are left
    unnormalised, which [SFdiv] accepts. *)
Definition Number_of_Z (n : Z) : spec_float :=
  match n with
  | Z0 => S754_zero false
  | Zpos p => S754_finite false p 0
  | Zneg p => S754_finite true p 0
  end.

(** The integer nearest to [100 * m * 2^e]; of two equally near ones, the
    larger (Number.prototype.toFixed, step 10.a). *)
Definition nearest_hundredths (m : positive) (e : Z) : Z :=
  if 0 <=? e then 100 * Zpos m * 2 ^ e
  else (200 * Zpos m + 2 ^ (- e)) / 2 ^ (- e + 1).

(** [x.toFixed(2)] for a Number below 10^21. *)
Definition toFixed2 (x : spec_float) : string :=
  match x with
  | S754_nan => "NaN"
  | S754_infinity s => if s then "-Infinity" else "Infinity"
  | S754_zero _ => "0.00"
  | S754_finite s m e =>
      let n := nearest_hundredths m e in
      (if s : bool then "-" else "") +:+
      Number_toString (n / 100) +:+ "." +:+ pad 2 (n mod 100)
  end.

(** [new Date()] and [Date.now()] both take the next reading of the clock. *)
Definition now `{Imports} : M Z := fun s =>
  Some (Date_now (ticks s),
        {| spinnerMessage := spinnerMessage s;
           spinner := spinner s;
           trace := trace s;
           handles := handles s;
           ticks := S (ticks s) |}).

(** ** The operations of the channel *)

(** The argument of [prettyError]. *)
Record error_like := {
  message : string;
  link : js_string;
  action : js_string;
}.

(** How a promise ends for whoever awaits it; [Pending] is a promise that
    never settles. *)
Inductive settled (T E : Type) :=
  | Fulfilled (r : T)
  | Rejected (reason : E)
  | Pending.
Arguments Fulfilled {T E} r.
Arguments Rejected {T E} reason.
Arguments Pending {T E}.

(** A promise, seen from the code that awaits it: what happens to the
    world while that code is suspended, and how the promise has settled
    when it resumes. *)
Definition promise (T E : Type) : Type := State -> settled T E * State.

(** The [fn] argument of [time]: a promise, or a function that is called
    for one and may throw instead. *)
Inductive task (T E : Type) :=
  | Started (p : promise T E)
  | Thunk (fn : State -> (E + promise T E) * State).
Arguments Started {T E} p.
Arguments Thunk {T E} fn.

(** The [label] argument of [time]: a string, or a function of the
    optional result. *)
Inductive time_label (T : Type) :=
  | Label (l : string)
  | LabelFn (f : option T -> string).
Arguments Label {T} l.
Arguments LabelFn {T} f.

Definition await {T E} (p : promise T E) : M (settled T E) :=
  fun s => Some (p s).

(** [typeof fn === 'function' ? fn() : fn] *)
Definition promise_of {T E} (fn : task T E) : M (E + promise T E) :=
  match fn with
  | Started p => ret (inr p)
  | Thunk f => fun s => Some (f s)
  end.

(** [typeof label === 'function' ? label(r) : label] *)
Definition label_of {T} (label : time_label T) (r : option T) : string :=
  match label with
  | Label l => l
  | LabelFn f => f r
  end.

(** [duration < 1000 ? `${duration}ms` : `${(duration / 1000).toFixed(2)}s`] *)
Definition durationPretty (duration : Z) : string :=
  if duration <? 1000 then Number_toString duration +:+ "ms"
  else toFixed2 (Number_div (Number_of_Z duration) (Number_of_Z 1000)) +:+ "s".

(** *** Calls *)

(** A call of one of the synchronous operations the channel exports. *)
Inductive call :=
  | CallIsDebugEnabled
  | CallPrint (str : string)
  | CallLog (str : string) (color : option (string -> string))
  | CallWarn (str : string) (slug link action : js_string)
      (options : option warn_options)
  | CallError (str : string) (slug link action : js_string)
  | CallPrettyError (err : error_like)
  | CallReady (str : string)
  | CallSuccess (str : string)
  | CallDebug (str : string)
  | CallDim (str : string) (color : option (string -> string))
  | CallNote (str : string)
  | CallSpinner (message : string) (delay : option Z)
  | CallStopSpinner.

(** The operations that print; [debug] is one of them in debug mode. *)
Definition print_family (debugEnabled : bool) (c : call) : bool :=
  match c with
  | CallIsDebugEnabled | CallSpinner _ _ | CallStopSpinner => false
  | CallDebug _ => debugEnabled
  | _ => true
  end.

(** ** Views of the trace *)

(** The texts written to the error stream, in order. *)
Definition writes (tr : list event) : list string :=
  omap (fun e => match e with StderrWrite str => Some str | _ => None end) tr.

(** The spinner handles that were started and not stopped since. *)
Definition active (tr : list event) : gset handle :=
  fold_left
    (fun (live : gset handle) e =>
       match e with
       | Wait h _ _ => {[ h ]} ∪ live
       | Stop h => live ∖ {[ h ]}
       | _ => live
       end)
    tr ∅.

(** The spinner handles that were ever created, in order. *)
Definition created (tr : list event) : list handle :=
  omap (fun e => match e with Wait h _ _ => Some h | _ => None end) tr.

(** The spinner handles the driver was told to stop, in order. *)
Definition stopped (tr : list event) : list handle :=
  omap (fun e => match e with Stop h => Some h | _ => None end) tr.

Definition is_write (e : event) : bool :=
  match e with
  | StderrWrite _ => true
  | _ => false
  end.

(** [s] ends with [suffix]. *)
Definition ends_with (suffix s : string) : Prop :=
  exists body : string, s = body +:+ suffix.

(** [needle] occurs in [hay]. *)
Definition occurs_in (needle hay : string) : Prop :=
  exists before after : string, hay = before +:+ needle +:+ after.

(** String.prototype.includes: the test for [occurs_in]. *)
Fixpoint includes (hay needle : string) : bool :=
  String.prefix needle hay ||
  match hay with
  | String _ hay' => includes hay' needle
  | EmptyString => false
  end.

(** No escape character and no line feed. *)
Fixpoint plain (s : string) : bool :=
  match s with
  | EmptyString => true
  | String c s' =>
      negb (Ascii.eqb c "027") && negb (Ascii.eqb c "010") && plain s'
  end.

(** A style that leaves plain text readable inside what it returns. *)
Definition keeps_text (style : string -> string) : Prop :=
  forall s, plain s = true -> occurs_in s (style s).

(** ** A terminal to run the channel on

    Styles as ANSI escape sequences, a box drawn as a pair of brackets, links
    shown as they are, and a clock that starts on 2023-11-14 and advances by
    a quarter of a second at every reading. *)
Module Terminal.

Definition ansi (on off : string) (s : string) : string :=
  String "027" ("[" +:+ on +:+ "m") +:+ s +:+ String "027" ("[" +:+ off +:+ "m").

#[export] Instance imports : Imports := {|
  chalk_grey := ansi "90" "39";
  chalk_gray := ansi "90" "39";
  chalk_red := ansi "31" "39";
  chalk_bold := ansi "1" "22";
  chalk_cyan := ansi "36" "39";
  chalk_bold_yellow := fun s => ansi "1" "22" (ansi "33" "39" s);
  chalk_yellow_bold := fun s => ansi "33" "39" (ansi "1" "22" s);
  boxen := fun text _ => "[ " +:+ text +:+ " ]";
  renderLink := fun url => url;
  Date_now := fun n => 1700000000000 + 250 * Z.of_nat n;
|}.

(** A channel that has recorded a spinner message. *)
Definition tracing : State :=
  {| spinnerMessage := "build"; spinner := None;
     trace := []; handles := 0; ticks := 0 |}.

(** A channel with a spinner running. *)
Definition busy : State :=
  {| spinnerMessage := "build"; spinner := Some 0%nat;
     trace := [Wait 0%nat "build" 300]; handles := 1; ticks := 0 |}.

(** The world after [n] more readings of the clock by other code. *)
Definition later (n : nat) (s : State) : State :=
  {| spinnerMessage := spinnerMessage s; spinner := spinner s;
     trace := trace s; handles := handles s; ticks := ticks s + n |}.

End Terminal.

Section Channel.
Context `{Imports} (debugEnabled : bool).

Definition isDebugEnabled : M bool := ret debugEnabled.

(** [print], [log] and [debug] call [stopSpinner], which calls [debug]
    again; they are written over the [stopSpinner] they call, and
    [stopSpinner] ties the knot below. *)
Definition print_with (stopSpinner : M unit) (str : string) : M unit :=
  stopSpinner ;;
  emit (StderrWrite str).

Definition log_with (stopSpinner : M unit) (str : string)
    (color : option (string -> string)) : M unit :=
  let color := default chalk_grey color in
  print_with stopSpinner (color ">" +:+ " " +:+ str +:+ LF).

Definition debug_with (stopSpinner : M unit) (str : string) : M unit :=
  if debugEnabled then
    date <- now ;;
    log_with stopSpinner
      (chalk_bold "[debug]" +:+ " " +:+
       chalk_gray ("[" +:+ toISOString date +:+ "]") +:+ " " +:+ str)
      None
  else ret tt.

Fixpoint stopSpinner (fuel : nat) : M unit :=
  match fuel with
  | O => out_of_fuel
  | S fuel' =>
      (spinnerMessage <- get spinnerMessage ;;
       if debugEnabled && truthy_string spinnerMessage then
         let msg := "Spinner stopped (" +:+ spinnerMessage +:+ ")" in
         set_spinnerMessage "" ;;
         debug_with (stopSpinner fuel') msg
       else ret tt) ;;
      spinner <- get spinner ;;
      match spinner with
      | Some h =>
          emit (Stop h) ;;
          set_spinner None ;;
          set_spinnerMessage ""
      | None => ret tt
      end
  end.

Definition print (fuel : nat) : string -> M unit :=
  print_with (stopSpinner fuel).

Definition log (fuel : nat) : string -> option (string -> string) -> M unit :=
  log_with (stopSpinner fuel).

Definition debug (fuel : nat) : string -> M unit :=
  debug_with (stopSpinner fuel).

Definition dim (fuel : nat) (str : string)
    (color : option (string -> string)) : M unit :=
  let color := default chalk_grey color in
  print fuel (color ("> " +:+ str) +:+ LF).

(** [slug ? `https://err.sh/vercel/${slug}` : link] *)
Definition details_of (slug link : js_string) : js_string :=
  if truthy slug then Str ("https://err.sh/vercel/" +:+ interpolate slug)
  else link.

Definition warn_box_options (options : option warn_options)
    : gmap string option_value :=
  spread {[ "padding" := OSides 0 0 1 1; "borderColor" := OStr "yellow" ]}
         (options ≫= wo_boxen).

(** The text [warn] puts in the box. *)
Definition warn_text (str : string) (details action : js_string) : string :=
  chalk_bold_yellow "WARN! " +:+ str +:+
  (if truthy details
   then LF +:+ interpolate action +:+ ": " +:+ renderLink (interpolate details)
   else "").

Definition warn (fuel : nat) (str : string) (slug link action : js_string)
    (options : option warn_options) : M unit :=
  let slug := or_default Null slug in
  let link := or_default Null link in
  let action := or_default (Str "Learn More") action in
  let details := details_of slug link in
  print fuel (boxen (warn_text str details action) (warn_box_options options)) ;;
  print fuel LF.

Definition note (fuel : nat) (str : string) : M unit :=
  log fuel (chalk_yellow_bold "NOTE:" +:+ " " +:+ str) None.

(** The second line of [error]. *)
Definition error_action_line (details action : js_string) : string :=
  chalk_bold (interpolate action) +:+ ": " +:+
  renderLink (interpolate details) +:+ LF.

Definition error (fuel : nat) (str : string) (slug link action : js_string)
    : M unit :=
  let action := or_default (Str "Learn More") action in
  print fuel (chalk_red "Error!" +:+ " " +:+ str +:+ LF) ;;
  let details := details_of slug link in
  if truthy details then print fuel (error_action_line details action)
  else ret tt.

Definition prettyError (fuel : nat) (err : error_like) : M unit :=
  error fuel (message err) Undefined (link err) (action err).

Definition ready (fuel : nat) (str : string) : M unit :=
  print fuel (chalk_cyan "> Ready!" +:+ " " +:+ str +:+ LF).

Definition success (fuel : nat) (str : string) : M unit :=
  print fuel (chalk_cyan "> Success!" +:+ " " +:+ str +:+ LF).

Definition setSpinner (fuel : nat) (message : string) (delay : option Z)
    : M unit :=
  let delay := default 300 delay in
  set_spinnerMessage message ;;
  if debugEnabled then
    debug fuel ("Spinner invoked (" +:+ message +:+ ") with a " +:+
                Number_toString delay +:+ "ms delay")
  else
    spinner <- get spinner ;;
    match spinner with
    | Some h => emit (SetText h message)
    | None =>
        h <- wait message delay ;;
        set_spinner (Some h)
    end.

(** [time]; the result is how the promise it returns settles. *)
Definition time {T E} (fuel : nat) (label : time_label T) (fn : task T E)
    : M (settled T E) :=
  called <- promise_of fn ;;
  match called with
  | inl thrown => ret (Rejected thrown)
  | inr promise =>
      if debugEnabled then
        let startLabel := label_of label None in
        debug fuel startLabel ;;
        start <- now ;;
        r <- await promise ;;
        match r with
        | Fulfilled r =>
            let endLabel := label_of label (Some r) in
            finish <- now ;;
            let duration := finish - start in
            debug fuel (endLabel +:+ " " +:+
                        chalk_gray ("[" +:+ durationPretty duration +:+ "]")) ;;
            ret (Fulfilled r)
        | Rejected reason => ret (Rejected reason)
        | Pending => ret Pending
        end
      else await promise
  end.

Definition run (fuel : nat) (c : call) : M unit :=
  match c with
  | CallIsDebugEnabled => isDebugEnabled ;; ret tt
  | CallPrint str => print fuel str
  | CallLog str color => log fuel str color
  | CallWarn str slug link action options =>
      warn fuel str slug link action options
  | CallError str slug link action => error fuel str slug link action
  | CallPrettyError err => prettyError fuel err
  | CallReady str => ready fuel str
  | CallSuccess str => success fuel str
  | CallDebug str => debug fuel str
  | CallDim str color => dim fuel str color
  | CallNote str => note fuel str
  | CallSpinner message delay => setSpinner fuel message delay
  | CallStopSpinner => stopSpinner fuel
  end.

Fixpoint run_all (fuel : nat) (calls : list call) : M unit :=
  match calls with
  | [] => ret tt
  | c :: calls' => run fuel c ;; run_all fuel calls'
  end.

(** ** The states the operations lead to *)

(** The line [debug] hands to the error stream. *)
Definition debug_line (date : Z) (str : string) : string :=
  chalk_grey ">" +:+ " " +:+
  (chalk_bold "[debug]" +:+ " " +:+
   chalk_gray ("[" +:+ toISOString date +:+ "]") +:+ " " +:+ str) +:+ LF.

(** [stopSpinner] has a trace to emit. *)
Definition tracing_stop (s : State) : bool :=
  debugEnabled && truthy_string (spinnerMessage s).

(** The call into the driver that stops the active spinner. *)
Definition release (s : State) : list event :=
  match spinner s with
  | Some h => [Stop h]
  | None => []
  end.

(** The trace line [stopSpinner] writes in debug mode for the recorded
    message. *)
Definition stop_lines (s : State) : list string :=
  if tracing_stop s
  then [debug_line (Date_now (ticks s))
          ("Spinner stopped (" +:+ spinnerMessage s +:+ ")")]
  else [].

Definition stop_events (s : State) : list event :=
  release s ++ map StderrWrite (stop_lines s).

(** The state [stopSpinner] leaves. *)
Definition after_stop (s : State) : State :=
  {| spinnerMessage :=
       if tracing_stop s || bool_decide (is_Some (spinner s)) then ""
       else spinnerMessage s;
     spinner := None;
     trace := trace s ++ stop_events s;
     handles := handles s;
     ticks := if tracing_stop s then S (ticks s) else ticks s |}.

(** The state after further events. *)
Definition and_then (s : State) (evs : list event) : State :=
  {| spinnerMessage := spinnerMessage s;
     spinner := spinner s;
     trace := trace s ++ evs;
     handles := handles s;
     ticks := ticks s |}.

(** The state after one more reading of the clock. *)
Definition ticked (s : State) : State :=
  {| spinnerMessage := spinnerMessage s;
     spinner := spinner s;
     trace := trace s;
     handles := handles s;
     ticks := S (ticks s) |}.

(** Nothing for [stopSpinner] to do. *)
Definition idle (s : State) : Prop :=
  spinner s = None /\ tracing_stop s = false.

(** The state after [stopSpinner] and the writing of [lines]. *)
Definition printed (s : State) (lines : list string) : State :=
  and_then (after_stop s) (map StderrWrite lines).

(** The lines [warn] writes. *)
Definition warn_lines (str : string) (slug link action : js_string)
    (options : option warn_options) : list string :=
  [ boxen
      (warn_text str (details_of (or_default Null slug) (or_default Null link))
         (or_default (Str "Learn More") action))
      (warn_box_options options);
    LF ].

(** The lines [error] writes. *)
Definition error_lines (str : string) (slug link action : js_string)
    : list string :=
  (chalk_red "Error!" +:+ " " +:+ str +:+ LF) ::
  (if truthy (details_of slug link)
   then [error_action_line (details_of slug link)
           (or_default (Str "Learn More") action)]
   else []).

(** The lines a call of the print family writes once the spinner is
    stopped; [date] is the reading of the clock [debug] takes. *)
Definition lines_of (date : Z) (c : call) : list string :=
  match c with
  | CallPrint str => [str]
  | CallLog str color => [default chalk_grey color ">" +:+ " " +:+ str +:+ LF]
  | CallWarn str slug link action options =>
      warn_lines str slug link action options
  | CallError str slug link action => error_lines str slug link action
  | CallPrettyError err =>
      error_lines (message err) Undefined (link err) (action err)
  | CallReady str => [chalk_cyan "> Ready!" +:+ " " +:+ str +:+ LF]
  | CallSuccess str => [chalk_cyan "> Success!" +:+ " " +:+ str +:+ LF]
  | CallDebug str => [debug_line date str]
  | CallDim str color => [default chalk_grey color ("> " +:+ str) +:+ LF]
  | CallNote str =>
      [chalk_grey ">" +:+ " " +:+
       (chalk_yellow_bold "NOTE:" +:+ " " +:+ str) +:+ LF]
  | CallIsDebugEnabled | CallSpinner _ _ | CallStopSpinner => []
  end.

(** The state in which a call of the print family stops the spinner:
    [debug] has read the clock by then. *)
Definition entering (c : call) (s : State) : State :=
  match c with
  | CallDebug _ => ticked s
  | _ => s
  end.

(** The state in which the trace of [stopSpinner] calls [stopSpinner]
    again: the recorded message is cleared and [debug] has read the clock. *)
Definition reentering (s : State) : State :=
  {| spinnerMessage := "";
     spinner := spinner s;
     trace := trace s;
     handles := handles s;
     ticks := S (ticks s) |}.

(** The state once [message] is recorded. *)
Definition recording (s : State) (message : string) : State :=
  {| spinnerMessage := message;
     spinner := spinner s;
     trace := trace s;
     handles := handles s;
     ticks := ticks s |}.

(** The state once [wait(message, delay)] has returned a handle and the
    channel holds it. *)
Definition spinning (s : State) (message : string) (delay : Z) : State :=
  {| spinnerMessage := message;
     spinner := Some (handles s);
     trace := trace s ++ [Wait (handles s) message delay];
     handles := S (handles s);
     ticks := ticks s |}.

(** The trace [setSpinner] asks for in debug mode. *)
Definition invoked (message : string) (delay : Z) : string :=
  "Spinner invoked (" +:+ message +:+ ") with a " +:+
  Number_toString delay +:+ "ms delay".


(** The state after [debug(str)] in debug mode. *)
Definition traced (s : State) (str : string) : State :=
  printed (ticked s) [debug_line (Date_now (ticks s)) str].

(** The handle the channel holds is the one active handle, and in debug
    mode the channel holds none and has no message left to trace. *)
Definition consistent (s : State) : Prop :=
  active (trace s) = from_option singleton ∅ (spinner s) /\
  (debugEnabled = true -> idle s).

(** The states a fresh channel gets to by calls of its operations. *)
Definition reachable (s : State) : Prop :=
  exists (fuel : nat) (calls : list call),
    run_all fuel calls fresh = Some (tt, s).

(** The lines a call writes on a channel that is not in debug mode. *)
Definition own_lines (c : call) : list string :=
  if print_family false c then lines_of 0 c else [].

(** The discipline of the handles: none is stopped twice, those stopped
    had been created, those created came from the driver's counter, and
    the handle the channel holds was created and is not stopped yet. *)
Definition sound (s : State) : Prop :=
  NoDup (stopped (trace s)) /\
  (forall h, h ∈ stopped (trace s) -> h ∈ created (trace s)) /\
  (forall h, h ∈ created (trace s) -> (h < handles s)%nat) /\
  (forall h, spinner s = Some h ->
     h ∈ created (trace s) /\ h ∉ stopped (trace s)).

(** The trace holds writes only and the driver has handed out no handle. *)
Definition driver_unused (s : State) : Prop :=
  Forall (fun e => is_write e = true) (trace s) /\ handles s = 0%nat.

(** The recorded message does not outlive the spinner, and the handles
    are in order. *)
Definition orderly (s : State) : Prop :=
  (spinner s = None -> spinnerMessage s = "") /\ sound s.

(** The calls that write whole lines: all but [print], which writes the
    text it is given, and [warn], which writes a box. *)
Definition whole_lines (c : call) : bool :=
  match c with
  | CallPrint _ | CallWarn _ _ _ _ _ => false
  | _ => true
  end.

(** ** The built-ins *)

(** *** The date-time string *)

Lemma N_of_digit d : N_of_ascii (digit d) = (48 + Z.to_N (d mod 10))%N.
Proof.
  unfold digit. apply N_ascii_embedding.
  pose proof (Z.mod_pos_bound d 10). lia.
Qed.

Lemma is_digit_digit d : is_digit (digit d) = true.
Proof.
  unfold is_digit. rewrite N_of_digit.
  pose proof (Z.mod_pos_bound d 10).
  apply andb_true_intro. split; apply N.leb_le; lia.
Qed.

Lemma digit_value_digit d : digit_value (digit d) = d mod 10.
Proof.
  unfold digit_value. rewrite N_of_digit.
  pose proof (Z.mod_pos_bound d 10). lia.
Qed.

Lemma digit_neq d c :
  (N_of_ascii c < 48)%N -> Ascii.eqb (digit d) c = false.
Proof.
  intros Hc. apply Ascii.eqb_neq. intros Heq.
  apply (f_equal N_of_ascii) in Heq. rewrite N_of_digit in Heq. lia.
Qed.

Lemma append_String c s rest : String c s +:+ rest = String c (s +:+ rest).
Proof. reflexivity. Qed.

Lemma take_number_pad w acc n rest :
  take_number w acc (pad w n +:+ rest) =
  Some (acc * 10 ^ Z.of_nat w + n mod 10 ^ Z.of_nat w, rest).
Proof.
  revert acc. induction w as [|w IH]; intros acc.
  - cbn [pad take_number Z.of_nat]. change ("" +:+ rest) with rest.
    rewrite Z.pow_0_r, Z.mod_1_r. do 2 f_equal. ring.
  - cbn [pad take_number]. rewrite append_String. cbn [take_number].
    rewrite is_digit_digit, digit_value_digit, IH.
    f_equal. f_equal.
    assert (0 < 10 ^ Z.of_nat w) by (apply Z.pow_pos_nonneg; lia).
    rewrite Nat2Z.inj_succ, Z.pow_succ_r by lia.
    rewrite (Z.mul_comm 10 (10 ^ Z.of_nat w)), Z.rem_mul_r by lia. ring.
Qed.

Lemma field_pad w lo hi sep n rest :
  lo <= n <= hi -> 0 <= n < 10 ^ Z.of_nat w ->
  field w lo hi sep (pad w n +:+ String sep rest) = Some rest.
Proof.
  intros Hn Hw. unfold field. rewrite take_number_pad.
  rewrite Z.mod_small by lia. rewrite Z.mul_0_l, Z.add_0_l.
  replace ((lo <=? n) && (n <=? hi)) with true by lia.
  unfold expect. by rewrite Ascii.eqb_refl.
Qed.

Lemma civil_from_days_bounds days :
  let '(y, m, d) := civil_from_days days in
  1 <= m <= 12 /\ 1 <= d <= 31 /\
  (- 100000000 <= days <= 100000000 -> - 999999 <= y <= 999999).
Proof.
  unfold civil_from_days.
  set (z := days + 719468).
  set (era := z / 146097). set (doe := z mod 146097).
  set (yoe := (doe - doe / 1460 + doe / 36524 - doe / 146096) / 365).
  set (doy := doe - (365 * yoe + yoe / 4 - yoe / 100)).
  set (mp := (5 * doy + 2) / 153).
  assert (0 <= doe < 146097) as Hdoe by (apply Z.mod_pos_bound; lia).
  assert (0 <= yoe <= 399) as Hyoe by (subst yoe; Z.div_mod_to_equations; lia).
  assert (0 <= doy <= 365) as Hdoy by (subst doy yoe; Z.div_mod_to_equations; lia).
  assert (0 <= mp <= 11) as Hmp by (subst mp; Z.div_mod_to_equations; lia).
  assert (z = 146097 * era + doe) as Hz by (subst era doe; apply Z.div_mod; lia).
  clearbody doe era. subst z.
  split; [destruct (Z.ltb_spec mp 10); lia|].
  split; [subst mp; Z.div_mod_to_equations; lia|].
  intros Hdays. destruct (_ <=? 2); lia.
Qed.

Lemma append_char c rest : String c "" +:+ rest = String c rest.
Proof. reflexivity. Qed.

Lemma year_field_year_string y rest :
  - 999999 <= y <= 999999 ->
  year_field (year_string y +:+ String "-" rest) = Some rest.
Proof.
  intros Hy. unfold year_string.
  destruct ((0 <=? y) && (y <=? 9999)) eqn:E.
  - assert (0 <= y <= 9999) as Hy' by lia.
    unfold year_field.
    change (pad 4 y) with (String (digit (y / 10 ^ Z.of_nat 3)) (pad 3 y)).
    rewrite append_String.
    rewrite !digit_neq by (vm_compute; reflexivity). cbn [orb].
    rewrite <- append_String. apply (field_pad 4); [done|]. simpl. lia.
  - destruct (y <? 0); rewrite append_char, append_String;
      unfold year_field; simpl Ascii.eqb; cbn [orb];
      apply field_pad; simpl; lia.
Qed.

Lemma iso8601_toISOString t :
  - 8640000000000000 <= t <= 8640000000000000 ->
  iso8601 (toISOString t) = true.
Proof.
  intros Ht. unfold toISOString, msPerDay.
  pose proof (civil_from_days_bounds (t / 86400000)) as Hciv.
  destruct (civil_from_days (t / 86400000)) as [[y m] d].
  destruct Hciv as (Hm & Hd & Hy).
  assert (- 999999 <= y <= 999999) as Hy'
    by (apply Hy; Z.div_mod_to_equations; lia).
  set (ms := t mod 86400000).
  assert (0 <= ms < 86400000) as Hms by (apply Z.mod_pos_bound; lia).
  clearbody ms.
  rewrite !append_char.
  unfold iso8601, date_time_fields. cbn [fold_left].
  rewrite year_field_year_string by done.
  rewrite (field_pad 2) by (simpl; lia).
  rewrite (field_pad 2) by (simpl; lia).
  rewrite (field_pad 2) by (simpl; Z.div_mod_to_equations; lia).
  rewrite (field_pad 2) by (simpl; Z.div_mod_to_equations; lia).
  rewrite (field_pad 2) by (simpl; Z.div_mod_to_equations; lia).
  rewrite (field_pad 3) by (simpl; Z.div_mod_to_equations; lia).
  reflexivity.
Qed.

Lemma plain_append a b : plain (a +:+ b) = plain a && plain b.
Proof.
  induction a as [|c a IH]; [done|].
  rewrite append_String. cbn [plain]. rewrite IH. by rewrite andb_assoc.
Qed.

Lemma plain_pad w n : plain (pad w n) = true.
Proof.
  induction w as [|w IH]; [done|].
  cbn [pad plain]. rewrite !digit_neq by (by vm_compute). by rewrite IH.
Qed.

Lemma plain_toISOString t : plain ("[" +:+ toISOString t +:+ "]") = true.
Proof.
  unfold toISOString. destruct (civil_from_days _) as [[y m] d].
  unfold year_string.
  destruct (_ && _); [|destruct (_ <? _)];
    rewrite ?plain_append, ?plain_pad; reflexivity.
Qed.

(** *** Division by 1000 and two decimals *)















(** ** What [stopSpinner] and [print] come to *)

Lemma after_stop_idle s : idle s -> after_stop s = s.
Proof.
  intros [Hsp Htr]. destruct s as [m sp tr h t]; simpl in *; subst.
  unfold after_stop, stop_events, stop_lines, release, tracing_stop in *;
    simpl in *.
  rewrite Htr. simpl. by rewrite app_nil_r.
Qed.

Lemma idle_after_stop s : idle (after_stop s).
Proof.
  split; [done|]. unfold tracing_stop, after_stop; simpl.
  fold (tracing_stop s).
  destruct (tracing_stop s) eqn:E; simpl.
  - apply andb_false_r.
  - case_bool_decide; [apply andb_false_r | exact E].
Qed.

Lemma idle_and_then s evs : idle s -> idle (and_then s evs).
Proof. by intros [? ?]. Qed.

Lemma stopSpinner_idle fuel s :
  (1 <= fuel)%nat -> idle s -> stopSpinner fuel s = Some (tt, s).
Proof.
  intros Hf [Hsp Htr]. destruct fuel as [|fuel]; [lia|].
  destruct s as [m sp tr h t]; simpl in *; subst.
  unfold tracing_stop in Htr; simpl in Htr.
  unfold bind, get; simpl. rewrite Htr. reflexivity.
Qed.

Lemma stopSpinner_eq fuel s :
  (2 <= fuel)%nat -> stopSpinner fuel s = Some (tt, after_stop s).
Proof.
  intros Hf. destruct fuel as [|[|fuel]]; [lia|lia|].
  destruct s as [m sp tr h t].
  unfold after_stop, stop_events, stop_lines, release, tracing_stop; simpl.
  unfold bind, get; simpl.
  destruct (debugEnabled && truthy_string m) eqn:E; simpl.
  - unfold debug_with, bind, get, set_spinnerMessage; simpl.
    destruct debugEnabled; [|done]. simpl.
    destruct sp as [hd|]; simpl; rewrite <- ?app_assoc; reflexivity.
  - destruct sp as [hd|]; simpl; rewrite ?app_nil_r; reflexivity.
Qed.

Lemma print_eq fuel str s :
  (2 <= fuel)%nat ->
  print fuel str s = Some (tt, and_then (after_stop s) [StderrWrite str]).
Proof.
  intros Hf. unfold print, print_with, bind.
  by rewrite stopSpinner_eq.
Qed.

Lemma print_idle fuel str s :
  (1 <= fuel)%nat -> idle s ->
  print fuel str s = Some (tt, and_then s [StderrWrite str]).
Proof.
  intros Hf Hs. unfold print, print_with, bind.
  by rewrite stopSpinner_idle.
Qed.

Lemma idle_printed s lines : idle (printed s lines).
Proof. apply idle_and_then, idle_after_stop. Qed.

Lemma printed_nil s : idle s -> printed s [] = s.
Proof.
  intros Hs. unfold printed. rewrite after_stop_idle by done.
  destruct s; unfold and_then; simpl. by rewrite app_nil_r.
Qed.

Lemma print_first fuel str s :
  (2 <= fuel)%nat -> print fuel str s = Some (tt, printed s [str]).
Proof. apply print_eq. Qed.

Lemma print_next fuel str s lines :
  (1 <= fuel)%nat ->
  print fuel str (printed s lines) = Some (tt, printed s (lines ++ [str])).
Proof.
  intros Hf. rewrite print_idle by auto using idle_printed.
  unfold printed, and_then; simpl. by rewrite map_app, app_assoc.
Qed.

Lemma log_eq fuel str color s :
  (2 <= fuel)%nat ->
  log fuel str color s =
  Some (tt, printed s [default chalk_grey color ">" +:+ " " +:+ str +:+ LF]).
Proof. intros Hf. unfold log, log_with. by apply print_first. Qed.

Lemma debug_eq fuel str s :
  (2 <= fuel)%nat ->
  debug fuel str s =
  Some (tt, if debugEnabled
            then printed (ticked s) [debug_line (Date_now (ticks s)) str]
            else s).
Proof.
  intros Hf. unfold debug, debug_with, bind, get, now.
  destruct debugEnabled; [|done].
  fold (ticked s). by apply (log_eq fuel _ None (ticked s)).
Qed.

Lemma warn_eq fuel str slug link action options s :
  (2 <= fuel)%nat ->
  warn fuel str slug link action options s =
  Some (tt, printed s (warn_lines str slug link action options)).
Proof.
  intros Hf. unfold warn, bind. rewrite print_first by done.
  rewrite print_next by lia. reflexivity.
Qed.

Lemma error_eq fuel str slug link action s :
  (2 <= fuel)%nat ->
  error fuel str slug link action s =
  Some (tt, printed s (error_lines str slug link action)).
Proof.
  intros Hf. unfold error, error_lines, bind. rewrite print_first by done.
  destruct (truthy (details_of slug link)); [|done].
  rewrite print_next by lia. reflexivity.
Qed.

(** Every call of the print family stops the spinner and then writes its
    lines. *)
Lemma run_print_family fuel c s :
  (2 <= fuel)%nat ->
  print_family debugEnabled c = true ->
  run fuel c s =
  Some (tt, printed (entering c s) (lines_of (Date_now (ticks s)) c)).
Proof.
  intros Hf Hc. destruct c; simpl in Hc; try discriminate; simpl.
  - by apply print_first.
  - by apply log_eq.
  - by apply warn_eq.
  - by apply error_eq.
  - unfold prettyError. by apply error_eq.
  - unfold ready. by apply print_first.
  - unfold success. by apply print_first.
  - rewrite debug_eq by done. by rewrite Hc.
  - unfold dim. by apply print_first.
  - unfold note. by apply log_eq.
Qed.

Lemma lines_of_not_nil date c :
  print_family true c = true -> lines_of date c <> [].
Proof. destruct c; simpl; try discriminate; done. Qed.

Lemma setSpinner_eq fuel message delay s :
  (2 <= fuel)%nat ->
  setSpinner fuel message delay s =
  Some (tt,
        if debugEnabled
        then traced (recording s message) (invoked message (default 300 delay))
        else match spinner s with
             | Some h => and_then (recording s message) [SetText h message]
             | None => spinning s message (default 300 delay)
             end).
Proof.
  intros Hf. unfold setSpinner, bind, set_spinnerMessage.
  fold (recording s message).
  destruct debugEnabled eqn:Hd.
  - rewrite debug_eq by done. by rewrite Hd.
  - unfold get; simpl. by destruct (spinner s).
Qed.

(** *** The active handles *)

Lemma active_snoc tr e :
  active (tr ++ [e]) =
  match e with
  | Wait h _ _ => {[ h ]} ∪ active tr
  | Stop h => active tr ∖ {[ h ]}
  | _ => active tr
  end.
Proof. unfold active. by rewrite fold_left_app. Qed.

Lemma active_writes tr lines :
  active (tr ++ map StderrWrite lines) = active tr.
Proof.
  induction lines as [|l lines IH] using rev_ind; simpl.
  - by rewrite app_nil_r.
  - rewrite map_app, app_assoc. simpl. by rewrite active_snoc.
Qed.

Lemma active_release s :
  active (trace s) = from_option singleton ∅ (spinner s) ->
  active (trace s ++ release s) = ∅.
Proof.
  intros Hs. unfold release. destruct (spinner s) as [h|]; simpl in *.
  - rewrite active_snoc, Hs. apply difference_diag_L.
  - by rewrite app_nil_r.
Qed.

Lemma consistent_printed s lines :
  active (trace s) = from_option singleton ∅ (spinner s) ->
  consistent (printed s lines).
Proof.
  intros Hs. split; [|intros _; apply idle_printed].
  unfold printed, and_then, after_stop, stop_events; simpl.
  rewrite active_writes, app_assoc, active_writes. by apply active_release.
Qed.

Lemma consistent_fresh : consistent fresh.
Proof. split; [done|]. intros _. split; [done|]. apply andb_false_r. Qed.

Lemma consistent_run fuel c s s' :
  (2 <= fuel)%nat ->
  consistent s -> run fuel c s = Some (tt, s') -> consistent s'.
Proof.
  intros Hf Hs Hrun.
  destruct (print_family debugEnabled c) eqn:Hc.
  { rewrite run_print_family in Hrun by done. injection Hrun as <-.
    apply consistent_printed. destruct Hs as [Hs _]. by destruct c. }
  destruct c; simpl in Hc; try discriminate; simpl in Hrun.
  - by injection Hrun as <-.
  - rewrite debug_eq, Hc in Hrun by done. by injection Hrun as <-.
  - rewrite setSpinner_eq in Hrun by done. injection Hrun as <-.
    destruct debugEnabled eqn:Hd.
    + apply consistent_printed. by destruct Hs as [Hs _].
    + destruct Hs as [Hs _]. split; [|congruence].
      destruct (spinner s) as [h|] eqn:Hsp; simpl in *.
      * by rewrite active_snoc, Hsp.
      * rewrite active_snoc, Hs. apply (right_id_L ∅ (∪)).
  - rewrite stopSpinner_eq in Hrun by done. injection Hrun as <-.
    destruct Hs as [Hs _]. split; [|intros _; apply idle_after_stop].
    unfold after_stop, stop_events; simpl.
    rewrite app_assoc, active_writes. by apply active_release.
Qed.

Lemma run_returns fuel c s :
  (2 <= fuel)%nat -> exists s', run fuel c s = Some (tt, s').
Proof.
  intros Hf. destruct (print_family debugEnabled c) eqn:Hc.
  { rewrite run_print_family by done. eauto. }
  destruct c; simpl in Hc; try discriminate; simpl.
  - eauto.
  - rewrite debug_eq by done. eauto.
  - rewrite setSpinner_eq by done. eauto.
  - rewrite stopSpinner_eq by done. eauto.
Qed.

Lemma consistent_run_all fuel calls s s' :
  (2 <= fuel)%nat ->
  consistent s -> run_all fuel calls s = Some (tt, s') -> consistent s'.
Proof.
  intros Hf. revert s. induction calls as [|c calls IH]; intros s Hs Hrun.
  - by injection Hrun as <-.
  - simpl in Hrun. unfold bind in Hrun.
    destruct (run_returns fuel c s Hf) as [s1 Hc]. rewrite Hc in Hrun.
    eapply IH; [|exact Hrun]. by eapply consistent_run.
Qed.

(** *** More fuel never changes a result *)

Lemma extends_refl {A} (m : M A) : extends m m.
Proof. by intros s r. Qed.

Lemma extends_bind {A B} (m m' : M A) (k k' : A -> M B) :
  extends m m' -> (forall a, extends (k a) (k' a)) ->
  extends (bind m k) (bind m' k').
Proof.
  intros Hm Hk s r. unfold bind.
  destruct (m s) as [[a s1]|] eqn:E; [|done].
  rewrite (Hm _ _ E). apply Hk.
Qed.

Lemma extends_print_with stop stop' str :
  extends stop stop' -> extends (print_with stop str) (print_with stop' str).
Proof. intros Hs. apply extends_bind; [done|intros; apply extends_refl]. Qed.

Lemma extends_debug_with stop stop' str :
  extends stop stop' -> extends (debug_with stop str) (debug_with stop' str).
Proof.
  intros Hs. unfold debug_with. destruct debugEnabled; [|apply extends_refl].
  apply extends_bind; [apply extends_refl|].
  intros date. by apply extends_print_with.
Qed.

Lemma stopSpinner_fuel fuel fuel' :
  (fuel <= fuel')%nat -> extends (stopSpinner fuel) (stopSpinner fuel').
Proof.
  revert fuel'. induction fuel as [|fuel IH]; intros fuel' Hle.
  - by intros s r.
  - destruct fuel' as [|fuel']; [lia|]. simpl.
    apply extends_bind; [|intros; apply extends_refl].
    apply extends_bind; [apply extends_refl|]. intros msg.
    destruct (debugEnabled && truthy_string msg); [|apply extends_refl].
    apply extends_bind; [apply extends_refl|]. intros _.
    apply extends_debug_with, IH. lia.
Qed.

Lemma print_fuel fuel fuel' str :
  (fuel <= fuel')%nat -> extends (print fuel str) (print fuel' str).
Proof. intros Hle. by apply extends_print_with, stopSpinner_fuel. Qed.

Lemma run_fuel fuel fuel' c :
  (fuel <= fuel')%nat -> extends (run fuel c) (run fuel' c).
Proof.
  intros Hle.
  pose proof (stopSpinner_fuel fuel fuel' Hle) as Hstop.
  destruct c; simpl;
    unfold warn, prettyError, error, ready, success, dim, note, log, debug,
      setSpinner, print, log_with;
    repeat first
      [ apply extends_refl
      | assumption
      | apply extends_print_with
      | apply extends_debug_with
      | apply extends_bind
      | match goal with
        | |- forall _, extends _ _ => intro
        | |- extends (if ?b then _ else _) _ => destruct b
        end ].
Qed.

Lemma run_all_fuel fuel fuel' calls :
  (fuel <= fuel')%nat -> extends (run_all fuel calls) (run_all fuel' calls).
Proof.
  intros Hle. induction calls as [|c calls IH]; simpl.
  - apply extends_refl.
  - apply extends_bind; [by apply run_fuel|]. by intros _.
Qed.

Lemma consistent_reachable s : reachable s -> consistent s.
Proof.
  intros (fuel & calls & Hrun).
  apply (run_all_fuel fuel (fuel + 2)) in Hrun; [|lia].
  eapply consistent_run_all; [|apply consistent_fresh|exact Hrun]. lia.
Qed.

(** ** The spinner is stopped before anything is printed *)

(** C1. Whatever the state of the channel, a call of [print], [log], [dim],
    [note], [warn], [error], [prettyError], [ready], [success], or of
    [debug] in debug mode, returns; what it adds to the trace is the stop
    of the active spinner, if there is one, followed by writes to the error
    stream only: the trace line of the stop, if [stopSpinner] has one to
    write, and then the lines of the call, of which there is at least one;
    and the channel holds no handle afterwards. *)
Theorem print_family_stops_spinner_first fuel c s :
  (2 <= fuel)%nat ->
  print_family debugEnabled c = true ->
  exists lines s',
    run fuel c s = Some (tt, s') /\
    lines = stop_lines (entering c s) ++ lines_of (Date_now (ticks s)) c /\
    lines_of (Date_now (ticks s)) c <> [] /\
    trace s' = trace s ++ release s ++ map StderrWrite lines /\
    spinner s' = None.
Proof.
  intros Hf Hc.
  exists (stop_lines (entering c s) ++ lines_of (Date_now (ticks s)) c).
  eexists. split; [by apply run_print_family|].
  split; [done|]. split.
  { apply lines_of_not_nil. destruct c; simpl in *; try done. }
  split; [|done].
  unfold printed, and_then, after_stop, stop_events; simpl.
  rewrite map_app, <- !app_assoc.
  by destruct c.
Qed.

(** ** [stopSpinner] when nothing is active, and its termination *)

(** C7. With no spinner handle and, in debug mode, no recorded message,
    [stopSpinner] returns and leaves the state, trace included, as it was;
    and from any state, a second [stopSpinner] changes nothing more. *)
Theorem stopSpinner_nothing_active fuel s :
  (2 <= fuel)%nat ->
  (spinner s = None ->
   (debugEnabled = true -> spinnerMessage s = "") ->
   stopSpinner fuel s = Some (tt, s)) /\
  exists s1,
    stopSpinner fuel s = Some (tt, s1) /\
    stopSpinner fuel s1 = Some (tt, s1).
Proof.
  intros Hf. split.
  - intros Hsp Hmsg. apply stopSpinner_idle; [lia|].
    split; [done|]. unfold tracing_stop.
    destruct debugEnabled; [|done]. by rewrite Hmsg.
  - exists (after_stop s). split; [by apply stopSpinner_eq|].
    apply stopSpinner_idle; [lia|]. apply idle_after_stop.
Qed.

(** C10. [stopSpinner] returns from every state and writes at most one
    trace line. When it has a message to trace and holds no handle, what
    it does is [print] the trace line from the state in which the message
    is cleared and the clock read, a [print] that calls [stopSpinner]
    again; that second call finds no recorded message and no handle,
    returns at once and changes nothing. *)
Theorem stopSpinner_terminates fuel s :
  (2 <= fuel)%nat ->
  exists s',
    stopSpinner fuel s = Some (tt, s') /\
    trace s' = trace s ++ release s ++ map StderrWrite (stop_lines s) /\
    (length (stop_lines s) <= 1)%nat /\
    spinnerMessage (reentering s) = "" /\
    (spinner s = None ->
     stopSpinner (fuel - 1) (reentering s) = Some (tt, reentering s) /\
     (tracing_stop s = true ->
      stopSpinner fuel s =
      print_with (stopSpinner (fuel - 1))
        (debug_line (Date_now (ticks s))
           ("Spinner stopped (" +:+ spinnerMessage s +:+ ")"))
        (reentering s))).
Proof.
  intros Hf. exists (after_stop s).
  split; [by apply stopSpinner_eq|].
  split; [done|].
  split; [unfold stop_lines; destruct (tracing_stop s); simpl; lia|].
  split; [done|].
  intros Hsp.
  assert (idle (reentering s)) as Hidle.
  { split; [done|]. unfold tracing_stop; simpl. apply andb_false_r. }
  split; [apply stopSpinner_idle; [lia|done]|].
  intros Htr. rewrite stopSpinner_eq by done.
  unfold print_with, bind. rewrite stopSpinner_idle by (done || lia).
  unfold emit, after_stop, stop_events, stop_lines, release. simpl.
  by rewrite Htr, Hsp.
Qed.

(** ** The action line of [warn] and [error] *)

Lemma truthy_Str slug : slug <> "" -> truthy (Str slug) = true.
Proof.
  intros Hne. unfold truthy, truthy_string.
  by destruct (String.eqb_spec slug "").
Qed.

(** C3, amended. A slug that is a non-empty string puts the URL
    [https://err.sh/vercel/{slug}] in the action line of [warn] and of
    [error], whatever the link; without such a slug, a link that is a
    non-empty string is rendered as it is; and with neither, [warn] boxes
    the message alone and [error] writes its first line only. *)
Theorem action_line_of_slug_and_link fuel str slug link action options s :
  (2 <= fuel)%nat ->
  let label := interpolate (or_default (Str "Learn More") action) in
  let headline := chalk_red "Error!" +:+ " " +:+ str +:+ LF in
  (forall name, slug = Str name -> name <> "" ->
     let url := "https://err.sh/vercel/" +:+ name in
     warn fuel str slug link action options s =
     Some (tt, printed s
       [ boxen (chalk_bold_yellow "WARN! " +:+ str +:+
                LF +:+ label +:+ ": " +:+ renderLink url)
           (warn_box_options options);
         LF ]) /\
     error fuel str slug link action s =
     Some (tt, printed s
       [ headline; chalk_bold label +:+ ": " +:+ renderLink url +:+ LF ])) /\
  (forall url, truthy slug = false -> link = Str url -> url <> "" ->
     warn fuel str slug link action options s =
     Some (tt, printed s
       [ boxen (chalk_bold_yellow "WARN! " +:+ str +:+
                LF +:+ label +:+ ": " +:+ renderLink url)
           (warn_box_options options);
         LF ]) /\
     error fuel str slug link action s =
     Some (tt, printed s
       [ headline; chalk_bold label +:+ ": " +:+ renderLink url +:+ LF ])) /\
  (truthy slug = false -> truthy link = false ->
     warn fuel str slug link action options s =
     Some (tt, printed s
       [ boxen (chalk_bold_yellow "WARN! " +:+ str +:+ "")
           (warn_box_options options);
         LF ]) /\
     error fuel str slug link action s = Some (tt, printed s [ headline ])).
Proof.
  intros Hf label headline. rewrite warn_eq, error_eq by done.
  unfold warn_lines, error_lines, warn_text, error_action_line, details_of.
  split; [|split].
  - intros name -> Hne. cbv zeta. simpl or_default.
    rewrite (truthy_Str name Hne). simpl interpolate.
    assert ("https://err.sh/vercel/" +:+ name <> "") as Hurl by done.
    by rewrite (truthy_Str _ Hurl).
  - intros url Hslug -> Hne. simpl (or_default Null (Str url)).
    replace (truthy (or_default Null slug)) with false by (by destruct slug).
    rewrite Hslug. by rewrite (truthy_Str url Hne).
  - intros Hslug Hlink.
    replace (truthy (or_default Null slug)) with false by (by destruct slug).
    replace (truthy (or_default Null link)) with false by (by destruct link).
    by rewrite Hslug, Hlink.
Qed.

(** C9. The empty string as slug is no slug: [warn] and [error] do with it
    what they do with [null] or [undefined] in its place; the URL of the
    action line is then the link, and there is an action line only if the
    link is a non-empty string.  With the slug [""], [error] writes its
    headline and, for such a link, the line of the rendered link; [warn]
    writes the box of the message, followed inside the box by the line of
    the rendered link for such a link and by nothing otherwise, and then
    the line feed.  No URL is built from [https://err.sh/vercel/]. *)
Theorem empty_slug_is_no_slug fuel str link action options s :
  warn fuel str (Str "") link action options s =
    warn fuel str Null link action options s /\
  warn fuel str (Str "") link action options s =
    warn fuel str Undefined link action options s /\
  error fuel str (Str "") link action s =
    error fuel str Undefined link action s /\
  details_of (Str "") link = link /\
  ((2 <= fuel)%nat ->
   error fuel str (Str "") link action s =
   Some (tt, printed s
     ((chalk_red "Error!" +:+ " " +:+ str +:+ LF) ::
      (if truthy link
       then [chalk_bold (interpolate (or_default (Str "Learn More") action))
             +:+ ": " +:+ renderLink (interpolate link) +:+ LF]
       else [])))) /\
  ((2 <= fuel)%nat ->
   warn fuel str (Str "") link action options s =
   Some (tt, printed s
     [ boxen
         (chalk_bold_yellow "WARN! " +:+ str +:+
          (if truthy link
           then LF +:+ interpolate (or_default (Str "Learn More") action)
                +:+ ": " +:+ renderLink (interpolate link)
           else ""))
         (warn_box_options options);
       LF ])).
Proof.
  repeat split; try reflexivity.
  - intros Hf. by rewrite error_eq.
  - intros Hf. rewrite warn_eq by done.
    unfold warn_lines, warn_text, details_of. by destruct link.
Qed.

(** ** [prettyError] *)


(** ** The spinner *)

Lemma created_snoc tr e :
  created (tr ++ [e]) =
  created tr ++ match e with Wait h _ _ => [h] | _ => [] end.
Proof.
  unfold created. rewrite omap_app. f_equal. by destruct e.
Qed.

Lemma created_writes tr lines :
  created (tr ++ map StderrWrite lines) = created tr.
Proof.
  unfold created. rewrite omap_app.
  assert (omap (fun e => match e with Wait h _ _ => Some h | _ => None end)
            (map StderrWrite lines) = []) as ->; [|by rewrite app_nil_r].
  by induction lines.
Qed.

Lemma created_release tr s : created (tr ++ release s) = created tr.
Proof.
  unfold release. destruct (spinner s).
  - rewrite created_snoc. by rewrite app_nil_r.
  - by rewrite app_nil_r.
Qed.

(** Outside debug mode [setSpinner] leaves the channel with one handle:
    the one it held, whose text it sets, or else a new one; in debug mode
    it creates none. *)
Lemma setSpinner_handles fuel message delay s :
  (2 <= fuel)%nat ->
  exists s',
    setSpinner fuel message delay s = Some (tt, s') /\
    if debugEnabled
    then created (trace s') = created (trace s) /\ spinner s' = None
    else
      spinnerMessage s' = message /\
      match spinner s with
      | Some h =>
          spinner s' = Some h /\
          trace s' = trace s ++ [SetText h message] /\
          created (trace s') = created (trace s)
      | None =>
          spinner s' = Some (handles s) /\
          trace s' = trace s ++ [Wait (handles s) message (default 300 delay)] /\
          created (trace s') = created (trace s) ++ [handles s]
      end.
Proof.
  intros Hf. eexists. split; [by apply setSpinner_eq|].
  destruct debugEnabled.
  - split; [|done]. unfold traced, printed, and_then, after_stop, stop_events.
    simpl.
    by rewrite created_snoc, app_nil_r, app_assoc, created_writes,
      created_release.
  - split; [by destruct (spinner s)|].
    destruct (spinner s) as [h|] eqn:Hsp; simpl.
    + split; [done|]. split; [done|]. by rewrite created_snoc, app_nil_r.
    + split; [done|]. split; [done|]. by rewrite created_snoc.
Qed.

(** In debug mode, on a channel with nothing to stop, [setSpinner] with a
    non-empty message writes the trace of a stop and then the trace of the
    invocation, and leaves no message recorded. *)
Lemma setSpinner_debug_forgets fuel message delay s :
  (2 <= fuel)%nat ->
  debugEnabled = true -> idle s -> message <> "" ->
  setSpinner fuel message delay s =
  Some (tt,
        {| spinnerMessage := "";
           spinner := None;
           trace :=
             trace s ++
             [ StderrWrite
                 (debug_line (Date_now (S (ticks s)))
                    ("Spinner stopped (" +:+ message +:+ ")"));
               StderrWrite
                 (debug_line (Date_now (ticks s))
                    (invoked message (default 300 delay))) ];
           handles := handles s;
           ticks := S (S (ticks s)) |}).
Proof.
  intros Hf Hd [Hsp _] Hne. rewrite setSpinner_eq, Hd by done.
  unfold traced, printed, and_then, after_stop, stop_events, stop_lines,
    release, tracing_stop. simpl. rewrite Hd, Hsp.
  replace (truthy_string message) with true
    by (unfold truthy_string; by destruct (String.eqb_spec message "")).
  simpl. by rewrite <- app_assoc.
Qed.

(** However the channel was driven, at most one spinner is active, and it
    is the one whose handle the channel holds. *)
Lemma at_most_one_active s :
  reachable s ->
  (size (active (trace s)) <= 1)%nat /\
  active (trace s) = from_option singleton ∅ (spinner s).
Proof.
  intros [Hact _]%consistent_reachable. split; [|done].
  rewrite Hact. destruct (spinner s) as [h|]; cbn [from_option].
  - by rewrite size_singleton.
  - rewrite size_empty. lia.
Qed.

(** In debug mode a channel driven through its operations holds no handle
    and has no message left to trace. *)
Lemma nothing_held_in_debug_mode s :
  reachable s -> debugEnabled = true ->
  spinner s = None /\ spinnerMessage s = "".
Proof.
  intros [_ Hidle]%consistent_reachable Hd.
  destruct (Hidle Hd) as [Hsp Htr]. split; [done|].
  unfold tracing_stop, truthy_string in Htr. rewrite Hd in Htr. simpl in Htr.
  by destruct (String.eqb_spec (spinnerMessage s) "").
Qed.

(** ** [debug] *)

Lemma append_assoc (a b c : string) : (a +:+ b) +:+ c = a +:+ b +:+ c.
Proof.
  induction a as [|x a IH]; [done|]. rewrite !append_String. by rewrite IH.
Qed.

Lemma occurs_in_middle needle before after :
  occurs_in needle (before +:+ needle +:+ after).
Proof. by exists before, after. Qed.

Lemma occurs_in_append_l needle hay before :
  occurs_in needle hay -> occurs_in needle (before +:+ hay).
Proof.
  intros (b & a & ->). exists (before +:+ b), a. by rewrite append_assoc.
Qed.

Lemma occurs_in_append_r needle hay after :
  occurs_in needle hay -> occurs_in needle (hay +:+ after).
Proof.
  intros (b & a & ->). exists b, (a +:+ after). by rewrite !append_assoc.
Qed.

Lemma occurs_in_trans a b c : occurs_in a b -> occurs_in b c -> occurs_in a c.
Proof.
  intros (b1 & a1 & ->) (b2 & a2 & ->).
  exists (b2 +:+ b1), (a1 +:+ a2). by rewrite !append_assoc.
Qed.

Lemma prefix_append needle after :
  String.prefix needle (needle +:+ after) = true.
Proof.
  induction needle as [|x needle IH]; [by destruct after|].
  rewrite append_String. cbn [String.prefix]. by destruct (ascii_dec x x).
Qed.

Lemma includes_prefix needle hay :
  String.prefix needle hay = true -> includes hay needle = true.
Proof. intros Hp. destruct hay; cbn [includes]; by rewrite Hp. Qed.

Lemma includes_occurs_in needle hay :
  occurs_in needle hay -> includes hay needle = true.
Proof.
  intros (before & after & ->).
  induction before as [|c before IH].
  - change ("" +:+ needle +:+ after) with (needle +:+ after).
    apply includes_prefix, prefix_append.
  - rewrite append_String. cbn [includes]. rewrite IH. apply orb_true_r.
Qed.

(** C6. With debug mode off, [debug] returns and leaves the state as it
    was, so nothing is written. With debug mode on, it reads the clock,
    stops the spinner as every printing operation does, and writes one
    line, the log line of the text; on a channel reached by calls of its
    operations there is nothing to stop, and that line is all [debug]
    writes. The timestamp of the line is a well-formed ISO-8601 date-time,
    and under styles that leave plain text readable the line contains
    [[debug]] and that timestamp. *)
Theorem debug_writes_one_timestamped_line fuel text s :
  (2 <= fuel)%nat ->
  - 8640000000000000 <= Date_now (ticks s) <= 8640000000000000 ->
  if debugEnabled
  then
    let timestamp := toISOString (Date_now (ticks s)) in
    let line :=
      chalk_grey ">" +:+ " " +:+
      (chalk_bold "[debug]" +:+ " " +:+
       chalk_gray ("[" +:+ timestamp +:+ "]") +:+ " " +:+ text) +:+ LF in
    (exists stopped,
       stopSpinner fuel (ticked s) = Some (tt, stopped) /\
       debug fuel text s = Some (tt, and_then stopped [StderrWrite line])) /\
    (reachable s ->
     debug fuel text s = Some (tt, and_then (ticked s) [StderrWrite line])) /\
    iso8601 timestamp = true /\
    (keeps_text chalk_bold -> occurs_in "[debug]" line) /\
    (keeps_text chalk_gray -> occurs_in timestamp line)
  else debug fuel text s = Some (tt, s).
Proof.
  intros Hf Hclock. rewrite debug_eq by done.
  destruct debugEnabled eqn:Hd; [|done].
  intros timestamp line.
  split; [|split; [|split; [|split]]].
  - exists (after_stop (ticked s)). split; [by apply stopSpinner_eq|done].
  - intros Hs. apply consistent_reachable in Hs. destruct Hs as [_ Hidle].
    specialize (Hidle Hd).
    unfold printed. rewrite after_stop_idle; [done|].
    destruct Hidle. by split.
  - by apply iso8601_toISOString.
  - intros Hbold. apply occurs_in_append_l, occurs_in_append_l,
      occurs_in_append_r, occurs_in_append_r. by apply Hbold.
  - intros Hgray. apply occurs_in_append_l, occurs_in_append_l,
      occurs_in_append_r, occurs_in_append_l, occurs_in_append_l,
      occurs_in_append_r.
    eapply occurs_in_trans; [|apply Hgray, plain_toISOString].
    apply occurs_in_middle.
Qed.

(** ** [time] *)






(** ** More on the spinner and its driver *)

Lemma stopped_snoc tr e :
  stopped (tr ++ [e]) =
  stopped tr ++ match e with Stop h => [h] | _ => [] end.
Proof. unfold stopped. rewrite omap_app. f_equal. by destruct e. Qed.

Lemma stopped_writes tr lines :
  stopped (tr ++ map StderrWrite lines) = stopped tr.
Proof.
  unfold stopped. rewrite omap_app.
  assert (omap (fun e => match e with Stop h => Some h | _ => None end)
            (map StderrWrite lines) = []) as ->; [|by rewrite app_nil_r].
  by induction lines.
Qed.

Lemma stopped_release tr s :
  stopped (tr ++ release s) =
  stopped tr ++ from_option (fun h => [h]) [] (spinner s).
Proof.
  unfold release. destruct (spinner s); simpl.
  - by rewrite stopped_snoc.
  - by rewrite !app_nil_r.
Qed.

Lemma writes_app tr evs : writes (tr ++ evs) = writes tr ++ writes evs.
Proof. apply omap_app. Qed.

Lemma writes_lines lines : writes (map StderrWrite lines) = lines.
Proof. induction lines as [|l lines IH]; [done|]. simpl. by rewrite IH. Qed.

Lemma writes_release s : writes (release s) = [].
Proof. unfold release. by destruct (spinner s). Qed.

(** X1. On a channel driven through its operations, the spinners that
    were started and not stopped since are at most one, and a spinner is
    active exactly when the channel holds its handle. *)
Theorem one_spinner_at_a_time s :
  reachable s ->
  (size (active (trace s)) <= 1)%nat /\
  forall h, h ∈ active (trace s) <-> spinner s = Some h.
Proof.
  intros [Hact _]%consistent_reachable. rewrite Hact.
  destruct (spinner s) as [h'|]; cbn [from_option].
  - split; [by rewrite size_singleton|].
    intros h. rewrite elem_of_singleton. split; congruence.
  - split; [rewrite size_empty; lia|].
    intros h. split; [by intros ?%not_elem_of_empty|done].
Qed.

(** Calls of [setSpinner] on a channel that holds a handle, outside debug
    mode. *)
Lemma setSpinner_again fuel (again : list (string * option Z)) s h :
  debugEnabled = false ->
  spinner s = Some h ->
  run_all fuel (map (fun md => CallSpinner md.1 md.2) again) s =
  Some (tt,
        {| spinnerMessage := default (spinnerMessage s) (last (map fst again));
           spinner := Some h;
           trace := trace s ++ map (SetText h) (map fst again);
           handles := handles s;
           ticks := ticks s |}).
Proof.
  intros Hd. revert s. induction again as [|[m d] again IH]; intros s Hsp.
  - destruct s; simpl in *. by rewrite app_nil_r, Hsp.
  - cbn [map run_all run fst snd]. unfold bind at 1.
    unfold setSpinner, bind, set_spinnerMessage, get. rewrite Hd. simpl.
    rewrite Hsp. cbn [emit]. simpl.
    rewrite IH by done. simpl. rewrite <- app_assoc. simpl.
    rewrite last_cons. by destruct (last (map fst again)).
Qed.

(** X2. Outside debug mode, calls of [setSpinner] in a row, on a channel
    that holds no handle, create one spinner, with the first message and
    delay (300 when none is given); every later call sets the text of that
    same spinner, and the message recorded in the end is the last one. No
    other spinner is created, nothing is written and the clock is not
    read. *)
Theorem setSpinner_in_a_row fuel message delay
    (again : list (string * option Z)) s :
  debugEnabled = false ->
  spinner s = None ->
  run_all fuel
    (CallSpinner message delay ::
     map (fun md => CallSpinner md.1 md.2) again) s =
  Some (tt,
        {| spinnerMessage := default message (last (map fst again));
           spinner := Some (handles s);
           trace :=
             trace s ++
             Wait (handles s) message (default 300 delay) ::
             map (SetText (handles s)) (map fst again);
           handles := S (handles s);
           ticks := ticks s |}).
Proof.
  intros Hd Hsp. cbn [run_all run]. unfold bind at 1.
  unfold setSpinner, bind, set_spinnerMessage, get, wait, set_spinner.
  rewrite Hd. simpl. rewrite Hsp. simpl.
  rewrite (setSpinner_again _ _ _ (handles s)) by done. simpl.
  by rewrite <- app_assoc.
Qed.

Lemma Forall_is_write lines :
  Forall (fun e => is_write e = true) (map StderrWrite lines).
Proof. induction lines; by constructor. Qed.

Lemma driver_unused_printed s lines :
  spinner s = None -> driver_unused s -> driver_unused (printed s lines).
Proof.
  intros Hsp [Htr Hh]. split; [|done].
  unfold printed, and_then, after_stop, stop_events, release. simpl.
  rewrite Hsp. simpl. rewrite !Forall_app.
  auto using Forall_is_write.
Qed.

Lemma driver_unused_run fuel c s s' :
  (2 <= fuel)%nat -> debugEnabled = true ->
  consistent s -> driver_unused s ->
  run fuel c s = Some (tt, s') -> driver_unused s'.
Proof.
  intros Hf Hd [_ Hidle] Hs Hrun. destruct (Hidle Hd) as [Hsp _].
  destruct (print_family debugEnabled c) eqn:Hc.
  { rewrite run_print_family in Hrun by done. injection Hrun as <-.
    apply driver_unused_printed; by destruct c. }
  destruct c; simpl in Hc; try discriminate; simpl in Hrun.
  - by injection Hrun as <-.
  - congruence.
  - rewrite setSpinner_eq, Hd in Hrun by done. injection Hrun as <-.
    by apply driver_unused_printed.
  - rewrite stopSpinner_eq in Hrun by done. injection Hrun as <-.
    rewrite <- (printed_nil (after_stop s)) by apply idle_after_stop.
    rewrite after_stop_idle by (by destruct (Hidle Hd)).
    by apply driver_unused_printed.
Qed.

(** X3. In debug mode a channel driven through its operations never calls
    the spinner driver: its trace holds writes to the error stream only,
    no handle was handed out and none is held. *)
Theorem no_spinner_in_debug_mode s :
  debugEnabled = true ->
  reachable s ->
  Forall (fun e => is_write e = true) (trace s) /\
  created (trace s) = [] /\
  handles s = 0%nat /\
  spinner s = None.
Proof.
  intros Hd (fuel & calls & Hrun).
  apply (run_all_fuel fuel (fuel + 2)) in Hrun; [|lia].
  assert (consistent s /\ driver_unused s) as [[_ Hidle] [Htr Hh]].
  { assert (driver_unused fresh) as Hfresh by (by split; [constructor|]).
    revert Hrun. generalize fresh, consistent_fresh, Hfresh. clear Hfresh.
    induction calls as [|c calls IH]; intros s0 Hc Hu Hrun.
    - by injection Hrun as <-.
    - simpl in Hrun. unfold bind in Hrun.
      destruct (run_returns (fuel + 2) c s0 ltac:(lia)) as [s1 Hc1].
      rewrite Hc1 in Hrun. eapply (IH s1); [| |exact Hrun].
      + eapply consistent_run; [|exact Hc|exact Hc1]. lia.
      + eapply driver_unused_run; [|exact Hd|exact Hc|exact Hu|exact Hc1]. lia. }
  split; [done|]. split; [|split; [done|by destruct (Hidle Hd)]].
  unfold created. induction Htr as [|e tr He _ IH]; [done|].
  destruct e; try discriminate. exact IH.
Qed.

(** *** What holds of every reachable state *)

Lemma reachable_ind' (P : State -> Prop) :
  P fresh ->
  (forall fuel c s s',
     (2 <= fuel)%nat -> consistent s -> P s ->
     run fuel c s = Some (tt, s') -> P s') ->
  forall s, reachable s -> P s.
Proof.
  intros Hfresh Hstep s (fuel & calls & Hrun).
  apply (run_all_fuel fuel (fuel + 2)) in Hrun; [|lia].
  revert Hrun. generalize fresh, consistent_fresh, Hfresh. clear Hfresh.
  induction calls as [|c calls IH]; intros s0 Hc HP Hrun.
  - by injection Hrun as <-.
  - simpl in Hrun. unfold bind in Hrun.
    destruct (run_returns (fuel + 2) c s0 ltac:(lia)) as [s1 Hc1].
    rewrite Hc1 in Hrun. eapply (IH s1); [| |exact Hrun].
    + eapply consistent_run; [|exact Hc|exact Hc1]. lia.
    + eapply Hstep; [|exact Hc|exact HP|exact Hc1]. lia.
Qed.

Lemma printed_nil_eq s : printed s [] = after_stop s.
Proof. unfold printed, and_then, after_stop. simpl. by rewrite app_nil_r. Qed.

Lemma stopped_printed s lines :
  stopped (trace (printed s lines)) =
  stopped (trace s) ++ from_option (fun h => [h]) [] (spinner s).
Proof.
  unfold printed, and_then, after_stop, stop_events. simpl.
  by rewrite stopped_writes, app_assoc, stopped_writes, stopped_release.
Qed.

Lemma created_printed s lines :
  created (trace (printed s lines)) = created (trace s).
Proof.
  unfold printed, and_then, after_stop, stop_events. simpl.
  by rewrite created_writes, app_assoc, created_writes, created_release.
Qed.

Lemma sound_printed s lines : sound s -> sound (printed s lines).
Proof.
  intros (Hnd & Hsub & Hlt & Hheld).
  unfold sound. rewrite stopped_printed, created_printed.
  split; [|split; [|split]].
  - destruct (spinner s) as [h|] eqn:Hsp; simpl; [|by rewrite app_nil_r].
    destruct (Hheld h eq_refl) as [_ Hnot].
    apply NoDup_app. split; [done|]. split; [|apply NoDup_singleton].
    intros x Hx ->%list_elem_of_singleton. done.
  - intros h [Hh|Hh]%elem_of_app; [by apply Hsub|].
    destruct (spinner s) as [h'|] eqn:Hsp; simpl in Hh.
    + apply list_elem_of_singleton in Hh as ->. by apply Hheld.
    + by apply elem_of_nil in Hh.
  - exact Hlt.
  - intros h. discriminate.
Qed.

Lemma orderly_printed s lines :
  (spinner s = None -> tracing_stop s = false -> spinnerMessage s = "") ->
  sound s -> orderly (printed s lines).
Proof.
  intros Hmsg Hs. split; [|by apply sound_printed].
  intros _. simpl. destruct (tracing_stop s) eqn:Htr; [done|].
  destruct (spinner s) eqn:Hsp; simpl; [done|]. by apply Hmsg.
Qed.

Lemma orderly_fresh : orderly fresh.
Proof.
  split; [done|]. split; [constructor|].
  split; [by intros h ?%elem_of_nil|].
  split; [by intros h ?%elem_of_nil|]. intros h. discriminate.
Qed.

Lemma orderly_run fuel c s s' :
  (2 <= fuel)%nat -> orderly s -> run fuel c s = Some (tt, s') -> orderly s'.
Proof.
  intros Hf [Hmsg Hs] Hrun.
  destruct (print_family debugEnabled c) eqn:Hc.
  { rewrite run_print_family in Hrun by done. injection Hrun as <-.
    destruct c; apply orderly_printed; auto. }
  destruct c; simpl in Hc; try discriminate; simpl in Hrun.
  - by injection Hrun as <-.
  - rewrite debug_eq, Hc in Hrun by done. by injection Hrun as <-.
  - rewrite setSpinner_eq in Hrun by done. injection Hrun as <-.
    destruct debugEnabled eqn:Hd.
    + apply orderly_printed; [|done]. simpl.
      unfold tracing_stop, truthy_string. simpl. rewrite Hd. simpl.
      intros _ Htr. by destruct (String.eqb_spec message0 "").
    + destruct Hs as (Hnd & Hsub & Hlt & Hheld).
      destruct (spinner s) as [h|] eqn:Hsp.
      * split; [simpl; congruence|]. unfold sound, and_then. simpl.
        rewrite stopped_snoc, created_snoc, !app_nil_r, Hsp. done.
      * split; [discriminate|]. unfold sound, spinning. simpl.
        rewrite stopped_snoc, created_snoc, app_nil_r.
        split; [done|]. split.
        { intros h Hh. apply elem_of_app. left. by apply Hsub. }
        split.
        { intros h [Hh|Hh]%elem_of_app.
          - specialize (Hlt h Hh). lia.
          - apply list_elem_of_singleton in Hh as ->. lia. }
        intros h [= <-]. split; [apply elem_of_app; right; by left|].
        intros Hh%Hsub%Hlt. lia.
  - rewrite stopSpinner_eq in Hrun by done. injection Hrun as <-.
    rewrite <- printed_nil_eq. apply orderly_printed; auto.
Qed.

Lemma orderly_reachable s : reachable s -> orderly s.
Proof.
  apply reachable_ind'; [apply orderly_fresh|].
  intros fuel c s0 s' Hf _ Hs Hrun. by eapply orderly_run.
Qed.

(** X4. On a channel driven through its operations the recorded message
    does not outlive the spinner: when no handle is held, no message is
    recorded. *)
Theorem message_cleared_with_spinner s :
  reachable s -> spinner s = None -> spinnerMessage s = "".
Proof. intros [Hmsg _]%orderly_reachable. exact Hmsg. Qed.

(** X5. On a channel driven through its operations no spinner is stopped
    twice, every spinner stopped is one that [wait] had returned, and the
    handle the channel holds is one that [wait] returned and that was not
    stopped. *)
Theorem no_spinner_stopped_twice s :
  reachable s ->
  NoDup (stopped (trace s)) /\
  (forall h, h ∈ stopped (trace s) -> h ∈ created (trace s)) /\
  (forall h, spinner s = Some h ->
     h ∈ created (trace s) /\ h ∉ stopped (trace s)).
Proof.
  intros [_ (Hnd & Hsub & _ & Hheld)]%orderly_reachable. done.
Qed.

(** X6. [stopSpinner], called on a channel driven through its operations,
    writes nothing to the error stream, in debug mode as well; it leaves
    the channel with no handle and no recorded message. *)
Theorem stopSpinner_is_silent fuel s :
  (2 <= fuel)%nat ->
  reachable s ->
  exists s',
    stopSpinner fuel s = Some (tt, s') /\
    writes (trace s') = writes (trace s) /\
    trace s' = trace s ++ release s /\
    spinner s' = None /\
    spinnerMessage s' = "".
Proof.
  intros Hf Hs. exists (after_stop s).
  split; [by apply stopSpinner_eq|].
  assert (stop_lines s = []) as Hnone.
  { unfold stop_lines. destruct (tracing_stop s) eqn:Htr; [|done].
    apply consistent_reachable in Hs as [_ Hidle].
    unfold tracing_stop in Htr. apply andb_true_iff in Htr as [Hd Htr].
    destruct (Hidle Hd) as [_ Hno]. unfold tracing_stop in Hno.
    rewrite Hd, Htr in Hno. discriminate. }
  pose proof (proj1 (orderly_reachable s Hs)) as Hmsg.
  unfold after_stop, stop_events. rewrite Hnone. simpl.
  rewrite app_nil_r, writes_app, writes_release, app_nil_r.
  repeat split.
  unfold stop_lines in Hnone.
  destruct (tracing_stop s); [done|]. simpl.
  case_bool_decide as Hsome; [done|].
  apply Hmsg. destruct (spinner s); [|done]. by destruct Hsome.
Qed.

(** ** What reaches the error stream *)

Lemma lines_of_date date c :
  print_family false c = true -> lines_of date c = own_lines c.
Proof. intros Hc. unfold own_lines. rewrite Hc. by destruct c. Qed.

Lemma quiet_run fuel c s :
  debugEnabled = false -> (2 <= fuel)%nat ->
  exists s',
    run fuel c s = Some (tt, s') /\
    writes (trace s') = writes (trace s) ++ own_lines c /\
    ticks s' = ticks s.
Proof.
  intros Hd Hf.
  assert (forall s0, stop_lines s0 = []) as Hnone
    by (intros s0; unfold stop_lines, tracing_stop; by rewrite Hd).
  assert (forall s0, ticks (after_stop s0) = ticks s0) as Hticks
    by (intros s0; unfold after_stop, tracing_stop; simpl; by rewrite Hd).
  assert (forall s0 lines,
            writes (trace (printed s0 lines)) = writes (trace s0) ++ lines)
    as Hprinted.
  { intros s0 lines. unfold printed, and_then, after_stop, stop_events.
    simpl. rewrite Hnone. simpl.
    by rewrite !writes_app, writes_release, writes_lines, !app_nil_r. }
  destruct (print_family debugEnabled c) eqn:Hc.
  { rewrite run_print_family by done. eexists. split; [done|].
    rewrite Hd in Hc. rewrite Hprinted, (lines_of_date _ c Hc).
    split; [by destruct c|].
    change (ticks (printed ?a ?b)) with (ticks (after_stop a)).
    rewrite Hticks. by destruct c. }
  rewrite Hd in Hc. unfold own_lines.
  destruct c; simpl in Hc; try discriminate; simpl.
  - eexists. split; [done|]. by rewrite app_nil_r.
  - rewrite debug_eq, Hd by done. eexists. split; [done|].
    by rewrite app_nil_r.
  - rewrite setSpinner_eq, Hd by done. eexists. split; [done|].
    destruct (spinner s); simpl; by rewrite writes_app, ?app_nil_r.
  - rewrite stopSpinner_eq by done. eexists. split; [done|].
    rewrite <- printed_nil_eq, Hprinted. split; [done|].
    rewrite printed_nil_eq. apply Hticks.
Qed.

(** X7. Outside debug mode, whatever calls are made and from whatever
    state, the error stream receives the lines of the calls that print, in
    the order of the calls and with nothing in between: [debug],
    [setSpinner], [stopSpinner] and [isDebugEnabled] write nothing; and the
    clock is never read. *)
Theorem stderr_in_call_order fuel calls s :
  debugEnabled = false ->
  (2 <= fuel)%nat ->
  exists s',
    run_all fuel calls s = Some (tt, s') /\
    writes (trace s') = writes (trace s) ++ concat (map own_lines calls) /\
    ticks s' = ticks s.
Proof.
  intros Hd Hf. revert s. induction calls as [|c calls IH]; intros s.
  - exists s. split; [done|]. by rewrite app_nil_r.
  - destruct (quiet_run fuel c s Hd Hf) as (s1 & Hrun & Hw & Ht).
    destruct (IH s1) as (s' & Hall & Hw' & Ht').
    exists s'. simpl. unfold bind. rewrite Hrun.
    split; [done|]. rewrite Hw', Hw, Ht', Ht. by rewrite app_assoc.
Qed.

(** X8. Two printing calls in a row are contiguous in the trace: from any
    state, once the first has returned, the second adds its own lines and
    nothing else, neither a stop of the spinner nor a trace of
    [stopSpinner]. *)
Theorem prints_are_contiguous fuel c1 c2 s :
  (2 <= fuel)%nat ->
  print_family debugEnabled c1 = true ->
  print_family debugEnabled c2 = true ->
  exists s1 s2,
    run fuel c1 s = Some (tt, s1) /\
    run fuel c2 s1 = Some (tt, s2) /\
    trace s2 =
      trace s1 ++ map StderrWrite (lines_of (Date_now (ticks s1)) c2).
Proof.
  intros Hf Hc1 Hc2. eexists _, _.
  split; [by apply run_print_family|].
  split; [by apply run_print_family|].
  set (s1 := printed (entering c1 s) (lines_of (Date_now (ticks s)) c1)).
  assert (idle (entering c2 s1)) as Hidle
    by (destruct c2; apply (idle_printed (entering c1 s))).
  unfold printed at 1. rewrite (after_stop_idle _ Hidle).
  by destruct c2.
Qed.

Lemma ends_with_append body suffix : ends_with suffix (body +:+ suffix).
Proof. by exists body. Qed.

Lemma ends_with_LF_4 a b c : ends_with LF (a +:+ b +:+ c +:+ LF).
Proof. exists (a +:+ b +:+ c). by rewrite !append_assoc. Qed.

Lemma debug_line_ends date str : ends_with LF (debug_line date str).
Proof. apply ends_with_LF_4. Qed.

Lemma whole_lines_of date c :
  whole_lines c = true -> Forall (ends_with LF) (lines_of date c).
Proof.
  intros Hc. destruct c; simpl in Hc; try discriminate; simpl;
    unfold error_lines, error_action_line;
    repeat first
      [ apply Forall_nil_2
      | apply Forall_cons_2
      | apply ends_with_LF_4
      | apply ends_with_append
      | match goal with |- context [if ?b then _ else _] => destruct b end ].
Qed.

(** X9. Every call other than [print] and [warn] writes whole lines: each
    string it hands to the error stream, the traces of [stopSpinner] and
    of [setSpinner] in debug mode included, ends with a line feed. *)
Theorem calls_write_whole_lines fuel c s :
  (2 <= fuel)%nat ->
  whole_lines c = true ->
  exists lines s',
    run fuel c s = Some (tt, s') /\
    writes (trace s') = writes (trace s) ++ lines /\
    Forall (ends_with LF) lines.
Proof.
  intros Hf Hc.
  assert (forall s0, Forall (ends_with LF) (stop_lines s0)) as Hstop.
  { intros s0. unfold stop_lines. destruct (tracing_stop s0); [|done].
    repeat constructor. apply debug_line_ends. }
  assert (forall s0 lines,
            writes (trace (printed s0 lines)) =
            writes (trace s0) ++ stop_lines s0 ++ lines) as Hprinted.
  { intros s0 lines. unfold printed, and_then, after_stop, stop_events.
    simpl.
    by rewrite !writes_app, writes_release, !writes_lines, app_nil_l,
      app_assoc. }
  destruct (print_family debugEnabled c) eqn:Hp.
  { rewrite run_print_family by done. eexists _, _. split; [done|].
    rewrite Hprinted. split; [by destruct c|].
    apply Forall_app. split; [apply Hstop|by apply whole_lines_of]. }
  destruct c; simpl in Hp, Hc; try discriminate; simpl.
  - exists [], s. by rewrite app_nil_r.
  - rewrite debug_eq, Hp by done. exists [], s. by rewrite app_nil_r.
  - rewrite setSpinner_eq by done. destruct debugEnabled.
    + eexists _, _. split; [done|]. unfold traced. rewrite Hprinted.
      split; [done|]. apply Forall_app. split; [apply Hstop|].
      repeat constructor. apply debug_line_ends.
    + exists []. eexists. split; [done|]. split; [|done].
      destruct (spinner s); simpl; by rewrite writes_app, ?app_nil_r.
  - rewrite stopSpinner_eq by done. eexists _, _. split; [done|].
    rewrite <- printed_nil_eq, Hprinted, app_nil_r. split; [done|].
    apply Hstop.
Qed.

(** ** The singleton and the options of the box *)

(** X10. Once [createOutput] has been called, the debug flag is the one
    of that first call for good: whatever calls of [createOutput] follow,
    with whatever options, and however the channel is used in between,
    the module holds a channel with the flag of the first call; and calls
    of [createOutput] alone leave the state of the channel as the first
    call made it. *)
Theorem createOutput_keeps_the_first_flag opts (steps : list module_step) :
  (exists s,
     fold_left module_do (Create opts :: steps) None =
     Some (debugEnabled_of opts, s)) /\
  (Forall (fun step => exists o, step = Create o) steps ->
   fold_left module_do (Create opts :: steps) None = Some (_createOutput opts)).
Proof.
  simpl. unfold _createOutput. generalize fresh.
  induction steps as [|step steps IH]; intros s.
  - split; [by exists s|done].
  - destruct (IH s) as [_ Hcreate]. split.
    + destruct step as [o|f]; simpl; [apply IH|apply (IH (f s))].
    + intros Hall. apply Forall_cons in Hall as [[o ->] Hall]. simpl.
      by apply IH.
Qed.

(** X11. The options [warn] gives [boxen] are the ones of the caller over
    the defaults: a key the caller sets has the caller's value, a key the
    caller does not set has its default (a padding of one column on each
    side, a yellow border), and without options the box has the defaults
    and nothing else. *)
Theorem warn_box_options_override options key :
  let defaults : gmap string option_value :=
    {[ "padding" := OSides 0 0 1 1; "borderColor" := OStr "yellow" ]} in
  (forall given value,
     options ≫= wo_boxen = Some given -> given !! key = Some value ->
     warn_box_options options !! key = Some value) /\
  (forall given,
     options ≫= wo_boxen = Some given -> given !! key = None ->
     warn_box_options options !! key = defaults !! key) /\
  (options ≫= wo_boxen = None -> warn_box_options options = defaults) /\
  defaults !! "padding" = Some (OSides 0 0 1 1) /\
  defaults !! "borderColor" = Some (OStr "yellow").
Proof.
  intros defaults. unfold warn_box_options, spread.
  split; [|split; [|split; [|split]]].
  - intros given value -> Hkey. simpl. by apply lookup_union_Some_l.
  - intros given -> Hkey. simpl. by apply lookup_union_r.
  - intros ->. simpl. apply (left_id_L ∅ (∪)).
  - done.
  - done.
Qed.

End Channel.

(** ** Runs on the terminal *)

#[local] Existing Instance Terminal.imports.

(** C2, on a new channel in debug mode. [setSpinner] does not keep the
    message it records, and announces the stop of the spinner before its
    start: the trace of the invocation goes through [print], whose
    [stopSpinner] finds the message just recorded, traces it and clears
    it. *)
Lemma setSpinner_in_debug_mode :
  setSpinner true 2 "build" None fresh =
  Some (tt,
        {| spinnerMessage := "";
           spinner := None;
           trace :=
             [ StderrWrite
                 (debug_line 1700000000250 "Spinner stopped (build)");
               StderrWrite
                 (debug_line 1700000000000
                    "Spinner invoked (build) with a 300ms delay") ];
           handles := 0;
           ticks := 2 |}).
Proof. reflexivity. Qed.

(** C3 as first stated fails. A slug that is the empty string is not
    [null], and yet [warn] boxes the message alone when there is no link,
    and [error] renders the link when there is one: the URL of the slug
    appears in no line. *)
Lemma empty_slug_is_not_rendered :
  (exists s',
     warn false 2 "oops" (Str "") Null Undefined None fresh = Some (tt, s') /\
     writes (trace s') =
       [ boxen (chalk_bold_yellow "WARN! " +:+ "oops") (warn_box_options None);
         LF ] /\
     forall line, line ∈ writes (trace s') ->
       ~ occurs_in "https://err.sh/vercel/" line) /\
  (exists s',
     error false 2 "oops" (Str "") (Str "https://example.com") Undefined fresh =
       Some (tt, s') /\
     writes (trace s') =
       [ chalk_red "Error!" +:+ " oops" +:+ LF;
         chalk_bold "Learn More" +:+ ": https://example.com" +:+ LF ] /\
     forall line, line ∈ writes (trace s') ->
       ~ occurs_in "https://err.sh/vercel/" line).
Proof.
  split; eexists;
    (split; [first [apply warn_eq | apply error_eq]; lia|]);
    (split; [reflexivity|]);
    intros line Hline Hin; apply includes_occurs_in in Hin;
    apply list_elem_of_In in Hline; simpl in Hline;
    repeat (destruct Hline as [<-|Hline]; [by vm_compute in Hin|]); done.
Qed.

(** Dividing the unnormalised integers gives the Number that dividing
    their normal forms gives. *)
Example Number_div_unnormalised :
  forallb
    (fun d =>
       SFeqb (Number_div (Number_of_Z d) (Number_of_Z 1000))
         (Number_div (binary_normalize 53 1024 d 0 false)
                     (binary_normalize 53 1024 1000 0 false)))
    [1000; 1005; 1500; 1995; 61234; 123456789; 9007199254740991] = true.
Proof. reflexivity. Qed.

(** [time] shows a second and a half as [1.50s] and a quarter of a second
    as [250ms]. *)
Example durationPretty_examples :
  durationPretty 1500 = "1.50s" /\ durationPretty 250 = "250ms" /\
  durationPretty 1005 = "1.00s" /\ durationPretty 999 = "999ms" /\
  durationPretty 1000 = "1.00s" /\ durationPretty 61234 = "61.23s".
Proof. repeat split; reflexivity. Qed.

Example time_a_second_and_a_half :
  time true 2 (Label "X")
    (Started (E := string) (fun s => (Fulfilled 5, Terminal.later 5 s))) fresh =
  Some (Fulfilled 5,
        {| spinnerMessage := "";
           spinner := None;
           trace :=
             [ StderrWrite (debug_line 1700000000000 "X");
               StderrWrite
                 (debug_line 1700000002000
                    ("X " +:+ chalk_gray "[1.50s]")) ];
           handles := 0;
           ticks := 9 |}).
Proof. reflexivity. Qed.

(** *** The theorems at work on the terminal *)

Lemma print_family_stops_spinner_first_witness :
  (2 <= 2)%nat /\
  print_family false
    (CallWarn "oops" (Str "my-slug") Undefined Undefined None) = true /\
  exists lines s',
    run false 2 (CallWarn "oops" (Str "my-slug") Undefined Undefined None)
      Terminal.busy = Some (tt, s') /\
    lines =
      stop_lines false Terminal.busy ++
      warn_lines "oops" (Str "my-slug") Undefined Undefined None /\
    warn_lines "oops" (Str "my-slug") Undefined Undefined None <> [] /\
    trace s' =
      trace Terminal.busy ++ release Terminal.busy ++ map StderrWrite lines /\
    spinner s' = None.
Proof.
  split; [lia|]. split; [reflexivity|].
  apply (print_family_stops_spinner_first false 2
           (CallWarn "oops" (Str "my-slug") Undefined Undefined None)
           Terminal.busy); [lia|reflexivity].
Defined.

Lemma stopSpinner_nothing_active_witness :
  (2 <= 2)%nat /\
  stopSpinner true 2 fresh = Some (tt, fresh) /\
  exists s1,
    stopSpinner true 2 Terminal.tracing = Some (tt, s1) /\
    stopSpinner true 2 s1 = Some (tt, s1).
Proof.
  split; [lia|]. split.
  - apply (stopSpinner_nothing_active true 2 fresh); [lia|reflexivity|reflexivity].
  - apply (stopSpinner_nothing_active true 2 Terminal.tracing). lia.
Defined.

Lemma stopSpinner_terminates_witness :
  (2 <= 2)%nat /\
  exists s',
    stopSpinner true 2 Terminal.tracing = Some (tt, s') /\
    trace s' =
      trace Terminal.tracing ++ release Terminal.tracing ++
      map StderrWrite (stop_lines true Terminal.tracing) /\
    (length (stop_lines true Terminal.tracing) <= 1)%nat /\
    spinnerMessage (reentering Terminal.tracing) = "" /\
    (spinner Terminal.tracing = None ->
     stopSpinner true (2 - 1) (reentering Terminal.tracing) =
     Some (tt, reentering Terminal.tracing) /\
     (tracing_stop true Terminal.tracing = true ->
      stopSpinner true 2 Terminal.tracing =
      print_with (stopSpinner true (2 - 1))
        (debug_line (Date_now (ticks Terminal.tracing))
           ("Spinner stopped (" +:+ spinnerMessage Terminal.tracing +:+ ")"))
        (reentering Terminal.tracing))).
Proof.
  split; [lia|]. apply stopSpinner_terminates. lia.
Defined.

Lemma action_line_of_slug_and_link_witness :
  (2 <= 2)%nat /\
  warn false 2 "oops" (Str "my-slug") (Str "https://example.com") Undefined
    None fresh =
  Some (tt, printed false fresh
    [ boxen (chalk_bold_yellow "WARN! " +:+ "oops" +:+ LF +:+ "Learn More"
             +:+ ": " +:+ renderLink "https://err.sh/vercel/my-slug")
        (warn_box_options None);
      LF ]) /\
  error false 2 "oops" Undefined (Str "https://example.com") Undefined fresh =
  Some (tt, printed false fresh
    [ chalk_red "Error!" +:+ " " +:+ "oops" +:+ LF;
      chalk_bold "Learn More" +:+ ": " +:+ renderLink "https://example.com"
      +:+ LF ]).
Proof.
  split; [lia|]. split.
  - destruct (action_line_of_slug_and_link false 2 "oops" (Str "my-slug")
                (Str "https://example.com") Undefined None fresh
                ltac:(lia)) as (Hslug & _ & _).
    apply (Hslug "my-slug"); [reflexivity|discriminate].
  - destruct (action_line_of_slug_and_link false 2 "oops" Undefined
                (Str "https://example.com") Undefined None fresh
                ltac:(lia)) as (_ & Hlink & _).
    apply (Hlink "https://example.com"); [reflexivity|reflexivity|discriminate].
Defined.

Lemma empty_slug_is_no_slug_witness :
  (2 <= 2)%nat /\
  error false 2 "oops" (Str "") (Str "https://example.com") Undefined fresh =
  Some (tt, printed false fresh
    [ chalk_red "Error!" +:+ " " +:+ "oops" +:+ LF;
      chalk_bold "Learn More" +:+ ": " +:+ renderLink "https://example.com"
      +:+ LF ]) /\
  warn false 2 "oops" (Str "") (Str "https://example.com") Undefined None
    fresh =
  Some (tt, printed false fresh
    [ boxen (chalk_bold_yellow "WARN! " +:+ "oops" +:+ LF +:+ "Learn More"
             +:+ ": " +:+ renderLink "https://example.com")
        (warn_box_options None);
      LF ]) /\
  warn false 2 "oops" (Str "") Undefined Undefined None fresh =
  Some (tt, printed false fresh
    [ boxen (chalk_bold_yellow "WARN! " +:+ "oops" +:+ "")
        (warn_box_options None);
      LF ]).
Proof.
  split; [lia|]. split; [|split].
  - apply (empty_slug_is_no_slug false 2 "oops" (Str "https://example.com")
             Undefined None fresh).
    lia.
  - apply (empty_slug_is_no_slug false 2 "oops" (Str "https://example.com")
             Undefined None fresh).
    lia.
  - apply (empty_slug_is_no_slug false 2 "oops" Undefined Undefined None
             fresh).
    lia.
Defined.


Lemma keeps_text_ansi on off : keeps_text (Terminal.ansi on off).
Proof. intros s _. eexists _, _. reflexivity. Qed.

Lemma debug_writes_one_timestamped_line_witness :
  (2 <= 2)%nat /\
  - 8640000000000000 <= Date_now (ticks fresh) <= 8640000000000000 /\
  reachable true fresh /\
  let timestamp := toISOString (Date_now (ticks fresh)) in
  let line :=
    chalk_grey ">" +:+ " " +:+
    (chalk_bold "[debug]" +:+ " " +:+
     chalk_gray ("[" +:+ timestamp +:+ "]") +:+ " " +:+ "hello") +:+ LF in
  debug true 2 "hello" fresh =
    Some (tt, and_then (ticked fresh) [StderrWrite line]) /\
  iso8601 timestamp = true /\
  occurs_in "[debug]" line /\
  occurs_in timestamp line.
Proof.
  assert (reachable true fresh) as Hfresh by (by exists 0%nat, []).
  assert (- 8640000000000000 <= Date_now (ticks fresh) <= 8640000000000000)
    as Hclock by (simpl; lia).
  split; [lia|]. split; [exact Hclock|]. split; [exact Hfresh|].
  destruct (debug_writes_one_timestamped_line true 2 "hello" fresh
              ltac:(lia) Hclock) as (_ & Hone & Hiso & Htag & Hstamp).
  intros timestamp line. split; [exact (Hone Hfresh)|]. split; [exact Hiso|].
  split; [apply Htag|apply Hstamp]; apply keeps_text_ansi.
Defined.



(** *** More runs on the terminal *)

Lemma one_spinner_at_a_time_witness :
  exists s,
    run_all false 2
      [CallSpinner "a" None; CallSpinner "b" None; CallPrint "x";
       CallSpinner "c" None] fresh = Some (tt, s) /\
    (size (active (trace s)) <= 1)%nat /\
    forall h, h ∈ active (trace s) <-> spinner s = Some h.
Proof.
  eexists. split; [vm_compute; reflexivity|].
  apply (one_spinner_at_a_time false).
  exists 2%nat,
    [CallSpinner "a" None; CallSpinner "b" None; CallPrint "x";
     CallSpinner "c" None].
  vm_compute; reflexivity.
Defined.

Lemma setSpinner_in_a_row_witness :
  false = false /\
  spinner fresh = None /\
  run_all false 0
    (CallSpinner "a" None ::
     map (fun md => CallSpinner md.1 md.2) [("b", Some 100); ("c", None)])
    fresh =
  Some (tt,
        {| spinnerMessage := "c";
           spinner := Some 0%nat;
           trace := [Wait 0%nat "a" 300; SetText 0%nat "b"; SetText 0%nat "c"];
           handles := 1;
           ticks := 0 |}).
Proof.
  split; [reflexivity|]. split; [reflexivity|].
  exact (setSpinner_in_a_row false 0 "a" None [("b", Some 100); ("c", None)]
           fresh eq_refl eq_refl).
Defined.

Lemma no_spinner_in_debug_mode_witness :
  true = true /\
  exists s,
    run_all true 2
      [CallSpinner "build" None; CallPrint "x"; CallStopSpinner;
       CallSpinner "deploy" (Some 10)] fresh = Some (tt, s) /\
    Forall (fun e => is_write e = true) (trace s) /\
    created (trace s) = [] /\
    handles s = 0%nat /\
    spinner s = None.
Proof.
  split; [reflexivity|]. eexists. split; [vm_compute; reflexivity|].
  apply (no_spinner_in_debug_mode true); [reflexivity|].
  exists 2%nat,
    [CallSpinner "build" None; CallPrint "x"; CallStopSpinner;
     CallSpinner "deploy" (Some 10)].
  vm_compute; reflexivity.
Defined.

Lemma message_cleared_with_spinner_witness :
  exists s,
    run_all false 2 [CallSpinner "a" None; CallLog "x" None] fresh =
      Some (tt, s) /\
    spinner s = None /\
    spinnerMessage s = "".
Proof.
  eexists. split; [vm_compute; reflexivity|]. split; [reflexivity|].
  apply (message_cleared_with_spinner false); [|reflexivity].
  exists 2%nat, [CallSpinner "a" None; CallLog "x" None].
  vm_compute; reflexivity.
Defined.

Lemma no_spinner_stopped_twice_witness :
  exists s,
    run_all false 2
      [CallSpinner "a" None; CallPrint "x"; CallStopSpinner;
       CallSpinner "b" None; CallStopSpinner; CallSpinner "c" None] fresh =
      Some (tt, s) /\
    NoDup (stopped (trace s)) /\
    (forall h, h ∈ stopped (trace s) -> h ∈ created (trace s)) /\
    (forall h, spinner s = Some h ->
       h ∈ created (trace s) /\ h ∉ stopped (trace s)).
Proof.
  eexists. split; [vm_compute; reflexivity|].
  apply (no_spinner_stopped_twice false).
  exists 2%nat,
    [CallSpinner "a" None; CallPrint "x"; CallStopSpinner;
     CallSpinner "b" None; CallStopSpinner; CallSpinner "c" None].
  vm_compute; reflexivity.
Defined.

Lemma stopSpinner_is_silent_witness :
  (2 <= 2)%nat /\
  exists s,
    run_all true 2 [CallSpinner "build" None] fresh = Some (tt, s) /\
    exists s',
      stopSpinner true 2 s = Some (tt, s') /\
      writes (trace s') = writes (trace s) /\
      trace s' = trace s ++ release s /\
      spinner s' = None /\
      spinnerMessage s' = "".
Proof.
  split; [lia|]. eexists. split; [vm_compute; reflexivity|].
  apply (stopSpinner_is_silent true); [lia|].
  exists 2%nat, [CallSpinner "build" None].
  vm_compute; reflexivity.
Defined.

Lemma stderr_in_call_order_witness :
  false = false /\
  (2 <= 2)%nat /\
  exists s',
    run_all false 2
      [CallSpinner "a" None; CallDebug "hidden"; CallLog "x" None;
       CallStopSpinner; CallError "bad" Undefined (Str "https://x") Undefined]
      Terminal.busy = Some (tt, s') /\
    writes (trace s') =
      writes (trace Terminal.busy) ++
      concat (map own_lines
        [CallSpinner "a" None; CallDebug "hidden"; CallLog "x" None;
         CallStopSpinner;
         CallError "bad" Undefined (Str "https://x") Undefined]) /\
    ticks s' = ticks Terminal.busy.
Proof.
  split; [reflexivity|]. split; [lia|].
  apply (stderr_in_call_order false); [reflexivity|lia].
Defined.

Lemma prints_are_contiguous_witness :
  (2 <= 2)%nat /\
  print_family true (CallReady "up") = true /\
  print_family true (CallDebug "next") = true /\
  exists s1 s2,
    run true 2 (CallReady "up") Terminal.tracing = Some (tt, s1) /\
    run true 2 (CallDebug "next") s1 = Some (tt, s2) /\
    trace s2 =
      trace s1 ++
      map StderrWrite (lines_of (Date_now (ticks s1)) (CallDebug "next")).
Proof.
  split; [lia|]. split; [reflexivity|]. split; [reflexivity|].
  apply (prints_are_contiguous true); [lia|reflexivity|reflexivity].
Defined.

Lemma calls_write_whole_lines_witness :
  (2 <= 2)%nat /\
  whole_lines (CallSpinner "build" None) = true /\
  exists lines s',
    run true 2 (CallSpinner "build" None) fresh = Some (tt, s') /\
    writes (trace s') = writes (trace fresh) ++ lines /\
    Forall (ends_with LF) lines.
Proof.
  split; [lia|]. split; [reflexivity|].
  apply (calls_write_whole_lines true); [lia|reflexivity].
Defined.

Lemma createOutput_keeps_the_first_flag_witness :
  fold_left module_do
    [ Create (Some {| debug_option := Some true |});
      Create None;
      Create (Some {| debug_option := Some false |}) ] None =
  Some (true, fresh).
Proof.
  apply (createOutput_keeps_the_first_flag
           (Some {| debug_option := Some true |})
           [Create None; Create (Some {| debug_option := Some false |})]).
  repeat constructor; by eexists.
Defined.

Lemma warn_box_options_override_witness :
  warn_box_options
    (Some {| wo_boxen := Some {[ "borderColor" := OStr "red" ]} |})
    !! "borderColor" = Some (OStr "red") /\
  warn_box_options
    (Some {| wo_boxen := Some {[ "borderColor" := OStr "red" ]} |})
    !! "padding" = Some (OSides 0 0 1 1).
Proof.
  split.
  - eapply (warn_box_options_override
              (Some {| wo_boxen := Some {[ "borderColor" := OStr "red" ]} |})
              "borderColor"); reflexivity.
  - destruct (warn_box_options_override
                (Some {| wo_boxen := Some {[ "borderColor" := OStr "red" ]} |})
                "padding") as (_ & Hdefault & _ & Hpad & _).
    rewrite (Hdefault {[ "borderColor" := OStr "red" ]}); done.
Defined.
